(** * Kampai: peer-to-peer encrypted chat over UDP (kampai.py)

    A shallow embedding of [Client.__init__] (the key exchange), of
    [Client.get_input] and [Client.run] (the duplex loop), and of the
    parts of PyNaCl and Python they call, followed by the properties
    of the handshake and of the message loop. *)

From Stdlib Require Import Strings.String Strings.Byte.
From Stdlib Require Import List Bool Arith ZArith NArith Lia.
Import ListNotations.

Set Implicit Arguments.

(** ** Byte strings (Python [bytes]) *)

Definition bytes := list byte.

Module Bytes.

Fixpoint eqb (a b : bytes) : bool :=
  match a, b with
  | [], [] => true
  | x :: a', y :: b' => Byte.eqb x y && eqb a' b'
  | _, _ => false
  end.

(** [b.startswith(prefix)] *)
Fixpoint startswith (b prefix : bytes) {struct prefix} : bool :=
  match prefix, b with
  | [], _ => true
  | p :: prefix', x :: b' => Byte.eqb x p && startswith b' prefix'
  | _ :: _, [] => false
  end.

(** The bytes [bytes.strip()] removes: space, \t, \n, \v, \f, \r. *)
Definition is_space (x : byte) : bool :=
  match x with
  | x20 | x09 | x0a | x0b | x0c | x0d => true
  | _ => false
  end.

Fixpoint lstrip (b : bytes) : bytes :=
  match b with
  | x :: b' => if is_space x then lstrip b' else b
  | [] => []
  end.

Definition rstrip (b : bytes) : bytes := rev (lstrip (rev b)).

(** [b.strip()] *)
Definition strip (b : bytes) : bytes := rstrip (lstrip b).

(** [b[-n:]] for [n > 0]: the last [n] bytes, all of [b] when it is shorter. *)
Definition suffix (n : nat) (b : bytes) : bytes := skipn (length b - n) b.

(** [b[:n]] and [b[n:]] *)
Definition upto (n : nat) (b : bytes) : bytes := firstn n b.
Definition from (n : nat) (b : bytes) : bytes := skipn n b.

Definition xor_byte (x y : byte) : byte :=
  let '(a0, (a1, (a2, (a3, (a4, (a5, (a6, a7))))))) := Byte.to_bits x in
  let '(b0, (b1, (b2, (b3, (b4, (b5, (b6, b7))))))) := Byte.to_bits y in
  Byte.of_bits (xorb a0 b0, (xorb a1 b1, (xorb a2 b2, (xorb a3 b3,
               (xorb a4 b4, (xorb a5 b5, (xorb a6 b6, xorb a7 b7))))))).

(** Bytewise xor of a message with a pad at least as long. *)
Fixpoint xor (m pad : bytes) : bytes :=
  match m, pad with
  | x :: m', p :: pad' => xor_byte x p :: xor m' pad'
  | _, _ => []
  end.

End Bytes.

(** ** Exceptions *)

Inductive exn : Type :=
| AttributeError
| TypeError
| ValueError
| RuntimeError
| CryptoError
| UnicodeDecodeError
| UnicodeEncodeError
| EOFError
| OSError
| OverflowError.

Inductive result (A : Type) : Type :=
| Ok (a : A)
| Raise (e : exn).
Arguments Ok {A} a.
Arguments Raise {A} e.

Definition rbind {A B} (r : result A) (k : A -> result B) : result B :=
  match r with
  | Ok a => k a
  | Raise e => Raise e
  end.

(** ** PyNaCl: [nacl.public]

    The library is not part of the repository.  Its four primitives
    are the fields of [Sodium]; what [PrivateKey], [PublicKey] and
    [Box] build from them is written out in [NaCl]. *)

(** Modelled from the spec: the primitives under PyNaCl's [Box], "a
    cryptographic construction combining asymmetric key agreement with
    symmetric encryption and integrity authentication".  They are left
    open: every statement below holds whatever they compute. *)
Class Sodium : Type := {
  (** curve25519 base-point multiplication: secret key to public key *)
  crypto_scalarmult_base : bytes -> bytes;
  crypto_scalarmult_BYTES :
    forall sk, length sk = 32 -> length (crypto_scalarmult_base sk) = 32;
  (** [crypto_box_beforenm pk sk]: the shared key, [None] when the
      library returns an error code *)
  crypto_box_beforenm : bytes -> bytes -> option bytes;
  (** byte [i] of the xsalsa20 key stream of a key and a nonce *)
  crypto_stream_byte : bytes -> bytes -> nat -> byte;
  (** poly1305 one-time authenticator of a message under a one-time key *)
  crypto_onetimeauth : bytes -> bytes -> bytes;
  crypto_onetimeauth_BYTES : forall k m, length (crypto_onetimeauth k m) = 16
}.

Module NaCl.
Section WithSodium.
Context {sodium : Sodium}.

Definition KEY_SIZE : nat := 32.
Definition NONCE_SIZE : nat := 24.
Definition MAC_SIZE : nat := 16.

(** Modelled from the spec: [PrivateKey.public_key] of PyNaCl; the
    key pair is {secretKey: 32 bytes, publicKey: 32 bytes}. *)
Definition public_key (skey : bytes) : bytes := crypto_scalarmult_base skey.

(** Modelled from the spec: the constructor [PublicKey(public_key=key)]
    of PyNaCl; a public key is 32 bytes, any other length is a
    [ValueError]. *)
Definition PublicKey (key : bytes) : result bytes :=
  if length key =? KEY_SIZE then Ok key else Raise ValueError.

(** The channel: the key pair it was made from and the shared key. *)
Record Box : Type := mkBox {
  box_skey : bytes;
  box_pkey : bytes;
  shared_key : bytes
}.

(** Modelled from the spec: the constructor [Box(private_key, public_key)]
    of PyNaCl, "shared cryptographic material derived from (own secret
    key, peer public key)"; an error code of the library is a
    [RuntimeError]. *)
Definition Box_new (skey pkey : bytes) : result Box :=
  match crypto_box_beforenm pkey skey with
  | Some k => Ok (mkBox skey pkey k)
  | None => Raise RuntimeError
  end.

Definition keystream (k nonce : bytes) (from len : nat) : bytes :=
  map (crypto_stream_byte k nonce) (seq from len).

(** Modelled from the spec: [crypto_box_afternm] of PyNaCl,
    authenticated encryption under the shared key: the first 32 bytes
    of the key stream key the authenticator, the rest is the pad; the
    output is the 16-byte authenticator followed by the padded
    message. *)
Definition crypto_box_afternm (m nonce k : bytes) : bytes :=
  let c := Bytes.xor m (keystream k nonce 32 (length m)) in
  crypto_onetimeauth (keystream k nonce 0 32) c ++ c.

(** Modelled from the spec: [crypto_box_open_afternm] of PyNaCl; the
    authenticator is recomputed and compared, a mismatch is a
    [CryptoError] (the spec's AuthenticationFailure). *)
Definition crypto_box_open_afternm (c nonce k : bytes) : result bytes :=
  if length c <? MAC_SIZE then Raise CryptoError
  else
    let tag := Bytes.upto MAC_SIZE c in
    let body := Bytes.from MAC_SIZE c in
    if Bytes.eqb (crypto_onetimeauth (keystream k nonce 0 32) body) tag
    then Ok (Bytes.xor body (keystream k nonce 32 (length body)))
    else Raise CryptoError.

(** Modelled from the spec: [Box.encrypt(plaintext)] of PyNaCl.  The
    nonce is the 24 random bytes the call draws; it is bound to the
    output, which is the nonce followed by the authenticated
    ciphertext. *)
Definition Box_encrypt (b : Box) (nonce plaintext : bytes) : result bytes :=
  if length nonce =? NONCE_SIZE
  then Ok (nonce ++ crypto_box_afternm plaintext nonce (shared_key b))
  else Raise ValueError.

(** Modelled from the spec: [Box.decrypt(ciphertext)] of PyNaCl; the
    nonce is read back from the first 24 bytes. *)
Definition Box_decrypt (b : Box) (ciphertext : bytes) : result bytes :=
  let nonce := Bytes.upto NONCE_SIZE ciphertext in
  let c := Bytes.from NONCE_SIZE ciphertext in
  if length nonce =? NONCE_SIZE
  then crypto_box_open_afternm c nonce (shared_key b)
  else Raise ValueError.

End WithSodium.
End NaCl.

(** ** Python text and the UTF-8 codec

    Modelled from the spec: Python's built-in codec, "encodes it as
    UTF-8 bytes" and "invalid UTF-8 after decryption".  A Python [str]
    is a sequence of code points.  [encode] and [decode] are the strict
    codec of [str.encode("utf-8")] and [bytes.decode("utf-8")]:
    surrogates are not encoded, and overlong forms, surrogates and
    values above U+10FFFF are not decoded. *)

Definition text := list N.

Module Utf8.

Definition byte_of (n : N) : byte :=
  match Byte.of_N n with
  | Some b => b
  | None => x00
  end.

Definition text_of_bytes (b : bytes) : text := map Byte.to_N b.

Definition encode_point (cp : N) : result bytes :=
  (if cp <? 128 then Ok [byte_of cp]
   else if cp <? 2048 then
     Ok [byte_of (192 + cp / 64); byte_of (128 + cp mod 64)]
   else if cp <? 65536 then
     if (55296 <=? cp) && (cp <? 57344) then Raise UnicodeEncodeError
     else Ok [byte_of (224 + cp / 4096); byte_of (128 + (cp / 64) mod 64);
              byte_of (128 + cp mod 64)]
   else if cp <? 1114112 then
     Ok [byte_of (240 + cp / 262144); byte_of (128 + (cp / 4096) mod 64);
         byte_of (128 + (cp / 64) mod 64); byte_of (128 + cp mod 64)]
   else Raise UnicodeEncodeError)%N.

Fixpoint encode (t : text) : result bytes :=
  match t with
  | [] => Ok []
  | cp :: t' =>
      rbind (encode_point cp) (fun b =>
      rbind (encode t') (fun b' => Ok (b ++ b')))
  end.

(** A continuation byte 10xxxxxx. *)
Definition is_cont (n : N) : bool := ((128 <=? n) && (n <? 192))%N.

Fixpoint decode (b : bytes) : result text :=
  match b with
  | [] => Ok []
  | b0 :: r0 =>
      let n0 := Byte.to_N b0 in
      if (n0 <? 128)%N then rbind (decode r0) (fun t => Ok (n0 :: t))
      else if ((194 <=? n0) && (n0 <? 224))%N then
        match r0 with
        | b1 :: r1 =>
            let n1 := Byte.to_N b1 in
            if is_cont n1
            then rbind (decode r1) (fun t =>
                   Ok (((n0 - 192) * 64 + (n1 - 128))%N :: t))
            else Raise UnicodeDecodeError
        | _ => Raise UnicodeDecodeError
        end
      else if ((224 <=? n0) && (n0 <? 240))%N then
        match r0 with
        | b1 :: b2 :: r2 =>
            let n1 := Byte.to_N b1 in
            let n2 := Byte.to_N b2 in
            let cp := ((n0 - 224) * 4096 + (n1 - 128) * 64 + (n2 - 128))%N in
            if is_cont n1 && is_cont n2 && (2048 <=? cp)%N
               && negb ((55296 <=? cp) && (cp <? 57344))%N
            then rbind (decode r2) (fun t => Ok (cp :: t))
            else Raise UnicodeDecodeError
        | _ => Raise UnicodeDecodeError
        end
      else if ((240 <=? n0) && (n0 <? 245))%N then
        match r0 with
        | b1 :: b2 :: b3 :: r3 =>
            let n1 := Byte.to_N b1 in
            let n2 := Byte.to_N b2 in
            let n3 := Byte.to_N b3 in
            let cp := ((n0 - 240) * 262144 + (n1 - 128) * 4096
                       + (n2 - 128) * 64 + (n3 - 128))%N in
            if is_cont n1 && is_cont n2 && is_cont n3
               && (65536 <=? cp)%N && (cp <? 1114112)%N
            then rbind (decode r3) (fun t => Ok (cp :: t))
            else Raise UnicodeDecodeError
        | _ => Raise UnicodeDecodeError
        end
      else Raise UnicodeDecodeError
  end.

End Utf8.

(** A string literal of the source, as bytes and as text. *)
Definition b_ (s : string) : bytes := list_byte_of_string s.
Definition s_ (s : string) : text := Utf8.text_of_bytes (list_byte_of_string s).

(** ** The datagram socket and the terminal *)

(** A socket address [(host, port)]. *)
Definition address : Type := string * Z.

(** A datagram as the network delivers it: its payload and its source. *)
Definition datagram : Type := bytes * address.

(** The buffer size of every [recv] and [recvfrom] of the source. *)
Definition BUFSIZE : nat := 4096.

(** Modelled from the spec: the datagram socket, "bounded to 4096
    bytes", a larger payload "is truncated".  What a receive with a
    buffer of [bufsize] bytes returns of a payload: its first
    [bufsize] bytes, the rest is lost. *)
Fixpoint cut (payload : bytes) (bufsize : nat) {struct payload} : bytes :=
  match payload, bufsize with
  | x :: payload', S bufsize' => x :: cut payload' bufsize'
  | _, _ => []
  end.

(** [sock.recvfrom(bufsize)]: the payload cut to the buffer, and the source. *)
Definition recvfrom (bufsize : nat) (dg : datagram) : bytes * address :=
  (cut (fst dg) bufsize, snd dg).

(** [sock.recv(bufsize)]: the payload cut to the buffer; the source is dropped. *)
Definition recv (bufsize : nat) (dg : datagram) : bytes :=
  cut (fst dg) bufsize.

Arguments BUFSIZE : simpl never.
Arguments recvfrom : simpl never.
Arguments recv : simpl never.

(** The lines [__init__] writes to stderr, by what they are formatted from. *)
Inductive log : Type :=
| LogStarted (creator : bool) (host : string) (port : Z)
| LogConnecting (host : string) (port : Z)
| LogPubkeyExchange (self_pkey key : bytes)
| LogKampai (host : string) (port : Z)
| LogNewline.

(** The slots of the client that describe the peer and the channel. *)
Inductive slot : Type := PeerHost | PeerPort | PeerPkey | BoxSlot.

(** What the program does: to the outside (socket, terminal), and to
    the peer slots of its own object, so that a run shows when they
    were written and when a box was made. *)
Inductive effect : Type :=
| Bind (a : address)
| Sendto (payload : bytes) (a : address)
| StderrWrite (l : log)
| StdoutWrite (t : text)
| Assign (s : slot)
| NewBox (skey pkey : bytes).

(** The datagrams among the effects. *)
Fixpoint sent (out : list effect) : list (bytes * address) :=
  match out with
  | [] => []
  | Sendto payload a :: out' => (payload, a) :: sent out'
  | _ :: out' => sent out'
  end.

(** The text shown to the user among the effects. *)
Fixpoint displayed (out : list effect) : list text :=
  match out with
  | [] => []
  | StdoutWrite t :: out' => t :: displayed out'
  | _ :: out' => displayed out'
  end.

(** ** The client (kampai.py) *)

Record Behaviour : Type := mkBehaviour {
  creator : bool;
  target_host : option string;
  target_port : Z;
  client_host : string;
  client_port : Z
}.

Module Client.
Section WithSodium.
Context {sodium : Sodium}.

(** The slots of a [Client]; [sock] is the bound socket, whose use
    shows in the effects.  A slot not yet assigned is [None]. *)
Record t : Type := mk {
  behaviour : Behaviour;
  self_skey : bytes;
  peer_host : option string;
  peer_port : option Z;
  peer_pkey : option bytes;
  box : option NaCl.Box
}.

(** *** Methods as state transformers

    A piece of a method takes the object, and gives back a value or
    the exception it raised, the object as it left it, and the
    effects it had up to there. *)

Definition M (A : Type) : Type := t -> result A * t * list effect.

Definition ret {A} (a : A) : M A := fun c => (Ok a, c, []).

Definition raise {A} (e : exn) : M A := fun c => (Raise e, c, []).

Definition bind {A B} (m : M A) (k : A -> M B) : M B :=
  fun c =>
    match m c with
    | (Ok a, c1, out1) =>
        let '(r, c2, out2) := k a c1 in (r, c2, out1 ++ out2)
    | (Raise e, c1, out1) => (Raise e, c1, out1)
    end.

Definition lift {A} (r : result A) : M A := fun c => (r, c, []).

Definition emit (e : effect) : M unit := fun c => (Ok tt, c, [e]).

(** [self.slot]: an [AttributeError] while the slot is unassigned. *)
Definition read {A} (slot : t -> option A) : M A :=
  fun c =>
    match slot c with
    | Some a => (Ok a, c, [])
    | None => (Raise AttributeError, c, [])
    end.

Definition gets {A} (field : t -> A) : M A := fun c => (Ok (field c), c, []).

(** [try: m except Exception: ...]: the exception becomes a value. *)
Definition try {A} (m : M A) : M (result A) :=
  fun c => let '(r, c1, out1) := m c in (Ok r, c1, out1).

Notation "x <- m ;; k" := (bind m (fun x => k))
  (at level 61, m at next level, right associativity).
Notation "m ;; k" := (bind m (fun _ => k))
  (at level 61, right associativity).

Definition set_peer_host (h : string) (c : t) : t :=
  mk (behaviour c) (self_skey c) (Some h) (peer_port c) (peer_pkey c) (box c).
Definition set_peer_port (p : Z) (c : t) : t :=
  mk (behaviour c) (self_skey c) (peer_host c) (Some p) (peer_pkey c) (box c).
Definition set_peer_pkey (k : bytes) (c : t) : t :=
  mk (behaviour c) (self_skey c) (peer_host c) (peer_port c) (Some k) (box c).
Definition set_box (b : NaCl.Box) (c : t) : t :=
  mk (behaviour c) (self_skey c) (peer_host c) (peer_port c) (peer_pkey c) (Some b).

(** An assignment [self.slot = ...], noted among the effects. *)
Definition assign (s : slot) (set : t -> t) : M unit :=
  fun c => (Ok tt, set c, [Assign s]).

(** [Box(private_key, public_key)], noted among the effects when it
    returns a box. *)
Definition new_Box (skey pkey : bytes) : M NaCl.Box :=
  b <- lift (NaCl.Box_new skey pkey) ;;
  emit (NewBox skey pkey) ;;
  ret b.

Definition establish : bytes := b_ "kampai_peer_establish:".

(** The object [__init__] starts from: [behaviour] and the freshly
    generated secret key assigned, the peer slots and the box not yet. *)
Definition fresh (bhv : Behaviour) (skey : bytes) : t :=
  mk bhv skey None None None None.

(** [__init__], lines 94-121: bind, and in 'join' mode the first
    establish datagram.  [sendto] to a host that is [None] is a
    [TypeError]; [bind] and [sendto] return here, what else they raise
    is in [Hosted.init_prelude]. *)
Definition init_prelude : M unit :=
  bhv <- gets behaviour ;;
  emit (Bind (client_host bhv, client_port bhv)) ;;
  emit (StderrWrite (LogStarted (creator bhv) (client_host bhv) (client_port bhv))) ;;
  if negb (creator bhv) then
    skey <- gets self_skey ;;
    let pubkey := NaCl.public_key skey in
    match target_host bhv with
    | Some host =>
        emit (Sendto (establish ++ pubkey) (host, target_port bhv)) ;;
        emit (StderrWrite (LogConnecting host (target_port bhv)))
    | None => raise TypeError
    end
  else ret tt.

(** [__init__], lines 126-153: the body of [while waiting], run on
    the datagram [recvfrom] returns; the value is the new [waiting]. *)
Definition wait_body (dg : datagram) : M bool :=
  let '(data, address) := recvfrom BUFSIZE dg in
  let sdata := Bytes.strip data in
  if Bytes.startswith sdata establish then
    let key := Bytes.suffix 32 sdata in
    assign PeerHost (set_peer_host (fst address)) ;;
    assign PeerPort (set_peer_port (snd address)) ;;
    pkey <- lift (NaCl.PublicKey key) ;;
    assign PeerPkey (set_peer_pkey pkey) ;;
    skey <- gets self_skey ;;
    pkey <- read peer_pkey ;;
    b <- new_Box skey pkey ;;
    assign BoxSlot (set_box b) ;;
    emit (StderrWrite (LogPubkeyExchange (NaCl.public_key skey) key)) ;;
    host <- read peer_host ;;
    port <- read peer_port ;;
    emit (Sendto (establish ++ NaCl.public_key skey) (host, port)) ;;
    emit (StderrWrite (LogKampai host port)) ;;
    ret false
  else ret true.



(** What the wait loop makes of a datagram: the bytes it looks at,
    whether they carry the tag, and the key it takes from them. *)
Definition stripped (dg : datagram) : bytes :=
  Bytes.strip (fst (recvfrom BUFSIZE dg)).
Definition tagged (dg : datagram) : bool :=
  Bytes.startswith (stripped dg) establish.
Definition key_of (dg : datagram) : bytes :=
  Bytes.suffix 32 (stripped dg).

(** A pass of the wait loop accepts its datagram when it ends the
    loop: [waiting] is set to [False] and nothing was raised. *)
Definition accepted (r : result bool * t * list effect) : bool :=
  match r with
  | (Ok false, _, _) => true
  | _ => false
  end.

(** Whether the library makes a shared key of a key pair. *)
Definition can_box (pkey skey : bytes) : bool :=
  match crypto_box_beforenm pkey skey with
  | Some _ => true
  | None => false
  end.

(** The client once a datagram from [a] with key [key] is accepted. *)
Definition established (c : t) (a : address) (key k : bytes) : t :=
  mk (behaviour c) (self_skey c) (Some (fst a)) (Some (snd a)) (Some key)
     (Some (NaCl.mkBox (self_skey c) key k)).

Definition prompt : text := s_ "kampai> ".
Definition CR : text := [13%N].
Definition LF : text := [10%N].

(** [input("kampai> ")] up to the point where it waits for a line. *)
Definition input_call : M unit := emit (StdoutWrite prompt).

(** [get_input], lines 161-168: the rest of the loop body once
    [input] has returned [message]; [nonce] is what [encrypt] draws.
    [sendto] returns here, what it raises is in
    [Hosted.get_input_body]. *)
Definition get_input_body (message : text) (nonce : bytes) : M unit :=
  b <- read box ;;
  plain <- lift (Utf8.encode message) ;;
  encrypted <- lift (NaCl.Box_encrypt b nonce plain) ;;
  host <- read peer_host ;;
  port <- read peer_port ;;
  emit (Sendto encrypted (host, port)).

(** [run], lines 175-186: the body of the receive loop.
    [stdout.write] returns here, what it raises is in
    [Hosted.run_body]. *)
Definition run_body (dg : datagram) : M unit :=
  let ciphertext := recv BUFSIZE dg in
  r <- try (b <- read box ;;
            plain <- lift (NaCl.Box_decrypt b ciphertext) ;;
            lift (Utf8.decode plain)) ;;
  match r with
  | Raise _ => ret tt
  | Ok plaintext =>
      emit (StdoutWrite (CR ++ s_ "        " ++ CR ++ plaintext ++ LF ++ prompt))
  end.

End WithSodium.
End Client.

(** ** The process

    [main] builds the client and calls [run]: the handshake is one
    sequential phase, then the receive loop and the input thread run
    side by side.  An event is one thing the process takes in: a
    datagram returned by [recvfrom]/[recv], a line returned by [input]
    (with the nonce [encrypt] then draws), or the end of the input. *)

Inductive phase : Type :=
| Handshake
| Duplex (input_alive : bool)
| Crashed (e : exn).

Inductive event : Type :=
| Datagram (dg : datagram)
| Line (message : text) (nonce : bytes)
| EndOfInput.

Module Process.
Section WithSodium.
Context {sodium : Sodium}.

Record t : Type := mk {
  client : Client.t;
  stage : phase
}.

(** [Client(behaviour=behaviour)] up to the wait loop; [skey] is the
    key [PrivateKey.generate()] draws. *)
Definition start (bhv : Behaviour) (skey : bytes) : t * list effect :=
  match Client.init_prelude (Client.fresh bhv skey) with
  | (Ok _, c, out) => (mk c Handshake, out)
  | (Raise e, c, out) => (mk c (Crashed e), out)
  end.

(** One pass of the wait loop; when it ends the loop, the rest of
    [__init__] and the start of [run]: the input thread calls [input]. *)
Definition handshake_step (dg : datagram) : Client.M bool :=
  Client.bind (Client.wait_body dg) (fun waiting =>
    if waiting : bool then Client.ret true
    else Client.bind (Client.emit (StderrWrite LogNewline)) (fun _ =>
         Client.bind Client.input_call (fun _ => Client.ret false))).

(** One pass of the loop of [get_input], then the next call of [input]. *)
Definition input_step (message : text) (nonce : bytes) : Client.M unit :=
  Client.bind (Client.get_input_body message nonce) (fun _ => Client.input_call).

(** [None]: the process does not take this event in this phase (no
    one reads the terminal during the handshake or once the input
    thread has ended; a crashed process takes nothing). *)
Definition step (p : t) (ev : event) : option (t * list effect) :=
  match stage p, ev with
  | Handshake, Datagram dg =>
      match handshake_step dg (client p) with
      | (Ok true, c, out) => Some (mk c Handshake, out)
      | (Ok false, c, out) => Some (mk c (Duplex true), out)
      | (Raise e, c, out) => Some (mk c (Crashed e), out)
      end
  | Duplex alive, Datagram dg =>
      match Client.run_body dg (client p) with
      | (Ok _, c, out) => Some (mk c (Duplex alive), out)
      | (Raise e, c, out) => Some (mk c (Crashed e), out)
      end
  | Duplex true, Line message nonce =>
      match input_step message nonce (client p) with
      | (Ok _, c, out) => Some (mk c (Duplex true), out)
      | (Raise _, c, out) => Some (mk c (Duplex false), out)
      end
  | Duplex true, EndOfInput => Some (mk (client p) (Duplex false), [])
  | _, _ => None
  end.

(** The process after a sequence of events, with all its effects;
    [None] when some event is not taken. *)
Fixpoint steps (p : t) (evs : list event) : option (t * list effect) :=
  match evs with
  | [] => Some (p, [])
  | ev :: evs' =>
      match step p ev with
      | Some (p1, out1) =>
          match steps p1 evs' with
          | Some (p2, out2) => Some (p2, out1 ++ out2)
          | None => None
          end
      | None => None
      end
  end.

(** A process with the effects it has had since it started. *)
Inductive reachable : t -> list effect -> Prop :=
| reach_start bhv skey p out :
    start bhv skey = (p, out) -> reachable p out
| reach_step p out ev p' out' :
    reachable p out -> step p ev = Some (p', out') ->
    reachable p' (out ++ out').

(** How often a slot was assigned, and how many boxes were made. *)
Definition is_assign (s : slot) (e : effect) : bool :=
  match e, s with
  | Assign PeerHost, PeerHost | Assign PeerPort, PeerPort
  | Assign PeerPkey, PeerPkey | Assign BoxSlot, BoxSlot => true
  | _, _ => false
  end.

Definition is_new_box (e : effect) : bool :=
  match e with
  | NewBox _ _ => true
  | _ => false
  end.

Definition writes (s : slot) (out : list effect) : nat :=
  length (filter (is_assign s) out).

Definition boxes (out : list effect) : nat :=
  length (filter is_new_box out).

(** Effects that leave the peer slots alone and make no box. *)
Definition quiet (out : list effect) : Prop :=
  (forall s, writes s out = 0) /\ boxes out = 0.

(** The peer slots and the box, none assigned yet, and all assigned. *)
Definition peer_unset (c : Client.t) : Prop :=
  Client.peer_host c = None /\ Client.peer_port c = None
  /\ Client.peer_pkey c = None /\ Client.box c = None.

Definition peer_set (c : Client.t) : Prop :=
  exists a key k, c = Client.established c a key k.

End WithSodium.
End Process.

(** ** A stand-in for libsodium

    Small functions in place of the four primitives, to run the model
    on examples.  It is no cipher; the shared key of two key pairs is
    the same from either side, and a public key of zeros only is
    refused. *)

Module Standin.

Definition mask (k : bytes) : bytes := map (Bytes.xor_byte x55) k.

Definition mask_BYTES (sk : bytes) (H : length sk = 32) : length (mask sk) = 32 :=
  eq_trans (length_map _ sk) H.

Definition beforenm (pk sk : bytes) : option bytes :=
  if forallb (Byte.eqb x00) pk then None
  else Some (Bytes.xor (mask pk) sk).

Definition stream_byte (k nonce : bytes) (i : nat) : byte :=
  Bytes.xor_byte (nth (i mod 32) k x00)
    (Bytes.xor_byte (nth (i mod 24) nonce x00)
       (Utf8.byte_of (N.of_nat (i mod 256)))).

Definition onetimeauth (k m : bytes) : bytes :=
  map (fun i => fold_left Bytes.xor_byte m (nth i k x00)) (seq 0 16).

Definition onetimeauth_BYTES (k m : bytes) : length (onetimeauth k m) = 16 :=
  eq_trans (length_map _ (seq 0 16)) (length_seq 16 0).

End Standin.

#[export] Instance standin : Sodium := {
  crypto_scalarmult_base := Standin.mask;
  crypto_scalarmult_BYTES := Standin.mask_BYTES;
  crypto_box_beforenm := Standin.beforenm;
  crypto_stream_byte := Standin.stream_byte;
  crypto_onetimeauth := Standin.onetimeauth;
  crypto_onetimeauth_BYTES := Standin.onetimeauth_BYTES
}.

(** ** Two peers and an outsider, for the examples

    Peer A creates on port 9001 and peer B joins it from port 9002, as
    in the end-to-end scenario; the outsider is anyone else who can
    reach A's port. *)

Module Example.

Definition skA : bytes := repeat x01 32.
Definition skB : bytes := repeat x02 32.
Definition addrA : address := ("127.0.0.1"%string, 9001%Z).
Definition addrB : address := ("127.0.0.1"%string, 9002%Z).
Definition outsider : address := ("10.0.0.66"%string, 4444%Z).

Definition A : Behaviour :=
  mkBehaviour true None 45000 "127.0.0.1" 9001.
Definition B : Behaviour :=
  mkBehaviour false (Some "127.0.0.1"%string) 9001 "127.0.0.1" 9002.

Definition pkA : bytes := NaCl.public_key skA.
Definition pkB : bytes := NaCl.public_key skB.

(** B's establish datagram, and A's answer to it. *)
Definition from_B : datagram := (Client.establish ++ pkB, addrB).
Definition from_A : datagram := (Client.establish ++ pkA, addrA).

(** A and B in the wait loop, and once each has accepted the other. *)
Definition waitingA : Client.t := Client.fresh A skA.
Definition waitingB : Client.t := Client.fresh B skB.
Definition readyA : Client.t := snd (fst (Client.wait_body from_B waitingA)).
Definition readyB : Client.t := snd (fst (Client.wait_body from_A waitingB)).

(** The two processes: started, and after the first datagram each receives. *)
Definition after (p : Process.t) (ev : event) : Process.t * list effect :=
  match Process.step p ev with
  | Some r => r
  | None => (p, [])
  end.
Definition pA0 : Process.t := fst (Process.start A skA).
Definition outA0 : list effect := snd (Process.start A skA).
Definition pA1 : Process.t := fst (after pA0 (Datagram from_B)).
Definition outA1 : list effect := snd (after pA0 (Datagram from_B)).
Definition pB0 : Process.t := fst (Process.start B skB).
Definition outB0 : list effect := snd (Process.start B skB).
Definition pB1 : Process.t := fst (after pB0 (Datagram from_A)).
Definition outB1 : list effect := snd (after pB0 (Datagram from_A)).

Definition boxA : NaCl.Box := NaCl.mkBox skA pkB (Bytes.xor skB skA).
Definition boxB : NaCl.Box := NaCl.mkBox skB pkA (Bytes.xor skA skB).

Definition nonce : bytes := repeat x09 24.
Definition hello : text := s_ "hello".

(** What A's box makes of some bytes, as a datagram from [src]. *)
Definition sealed (plain : bytes) (src : address) : datagram :=
  match NaCl.Box_encrypt boxA nonce plain with
  | Ok payload => (payload, src)
  | Raise _ => ([], src)
  end.

(** The datagram A sends for the line "hello"; one whose plaintext
    is no UTF-8; one that no box made. *)
Definition hello_datagram (src : address) : datagram := sealed (b_ "hello") src.

(** Datagrams that are not well-formed establish datagrams. *)
Definition tag_alone : bytes := Client.establish.
Definition tag_and_12 : bytes := Client.establish ++ repeat x07 12.
Definition space_first : bytes := x20 :: Client.establish ++ pkB.
Definition newline_last : bytes := Client.establish ++ pkB ++ [x0a].
Definition key_ending_in_space : bytes := repeat x01 31 ++ [x20].
Definition noise : bytes := b_ "hello?".

End Example.

(** ** The handshake datagram on the wire

    What a datagram is taken for is said here of its bytes alone,
    without [strip]: whether they begin with a tag once the ASCII
    whitespace before it is passed over. *)

Module Wire.

Fixpoint starts_after_whitespace (data tag : bytes) {struct data} : bool :=
  Bytes.startswith data tag
  || match data with
     | x :: data' => Bytes.is_space x && starts_after_whitespace data' tag
     | [] => false
     end.

End Wire.

(** ** The operating system

    [socket] and the terminal are Python's and the system's, not the
    repository's.  In [Client] and [Process] above, every call of
    [bind], [sendto] and [stdout.write] returns normally.  Here are
    the ways they raise; [Hosted] below is the program on a system
    that decides each call. *)

(** Modelled from the spec: "Bind failure on local address" and
    "Socket I/O error mid-session" are fatal, the program handles
    neither.  What the system decides is left open: every statement
    holds whatever these four answer. *)
Class Os : Type := {
  (** the host is an IPv4 address or a name the resolver finds *)
  resolves : string -> bool;
  (** the system binds the socket to this address *)
  binds : address -> bool;
  (** the system takes this datagram for this address *)
  carries : bytes -> address -> bool;
  (** the encoding of [stdout] has every character of this text *)
  shows : text -> bool
}.

Module Socket.
Section WithOs.
Context {os : Os}.

(** The most bytes a UDP datagram holds over IPv4: 65535 less the IP
    and UDP headers. *)
Definition MAX_PAYLOAD : N := 65507.

(** A Python [int] that fits a C [int]. *)
Definition c_int (n : Z) : bool :=
  ((-2147483648 <=? n) && (n <=? 2147483647))%Z.

Definition port_ok (port : Z) : bool := ((0 <=? port) && (port <=? 65535))%Z.

(** The conversion of [(host, port)] to a socket address, the first
    thing [bind] and [sendto] of Python's [socket] do, in its order: a
    host that is [None] is a [TypeError]; a port that is no C [int] an
    [OverflowError]; a host that does not resolve an [OSError]; a port
    outside 0..65535 an [OverflowError]. *)
Definition sockaddr (host : option string) (port : Z) : result address :=
  match host with
  | None => Raise TypeError
  | Some h =>
      if negb (c_int port) then Raise OverflowError
      else if negb (resolves h) then Raise OSError
      else if negb (port_ok port) then Raise OverflowError
      else Ok (h, port)
  end.

(** Modelled from the spec: [sock.bind((host, port))], whose failure
    is fatal; a refusal of the system is Python's [OSError]. *)
Definition bind (host : string) (port : Z) : result address :=
  rbind (sockaddr (Some host) port) (fun a =>
    if binds a then Ok a else Raise OSError).

(** Modelled from the spec: [sock.sendto(data, (host, port))], a
    socket I/O error of which propagates; a datagram too long for UDP,
    or a refusal of the system, is Python's [OSError]. *)
Definition sendto (data : bytes) (host : option string) (port : Z) : result address :=
  rbind (sockaddr host port) (fun a =>
    if (N.of_nat (length data) <=? MAX_PAYLOAD)%N && carries data a
    then Ok a else Raise OSError).

End WithOs.
End Socket.

(** ** The client and the process on an operating system

    The methods of [Client] once more, line by line, with [bind],
    [sendto] and [stdout.write] as calls that can raise. *)

Module Hosted.
Section WithOs.
Context {sodium : Sodium} {os : Os}.

Local Notation "x <- m ;; k" := (Client.bind m (fun x => k))
  (at level 61, m at next level, right associativity).
Local Notation "m ;; k" := (Client.bind m (fun _ => k))
  (at level 61, right associativity).

(** [self.sock.bind((host, port))] *)
Definition sock_bind (host : string) (port : Z) : Client.M unit :=
  a <- Client.lift (Socket.bind host port) ;;
  Client.emit (Bind a).

(** [self.sock.sendto(data, (host, port))]; the value is the address
    the datagram went to. *)
Definition sock_sendto (data : bytes) (host : option string) (port : Z)
    : Client.M address :=
  a <- Client.lift (Socket.sendto data host port) ;;
  Client.emit (Sendto data a) ;;
  Client.ret a.

(** [stdout.write(t)]: a [UnicodeEncodeError] when the encoding of
    [stdout] lacks a character of [t]. *)
Definition stdout_write (t : text) : Client.M unit :=
  if shows t then Client.emit (StdoutWrite t) else Client.raise UnicodeEncodeError.

(** [__init__], lines 94-121. *)
Definition init_prelude : Client.M unit :=
  bhv <- Client.gets Client.behaviour ;;
  sock_bind (client_host bhv) (client_port bhv) ;;
  Client.emit (StderrWrite (LogStarted (creator bhv) (client_host bhv) (client_port bhv))) ;;
  if negb (creator bhv) then
    let establish := b_ "kampai_peer_establish:" in
    skey <- Client.gets Client.self_skey ;;
    let pubkey := NaCl.public_key skey in
    a <- sock_sendto (establish ++ pubkey) (target_host bhv) (target_port bhv) ;;
    Client.emit (StderrWrite (LogConnecting (fst a) (snd a)))
  else Client.ret tt.

(** [__init__], lines 126-153: the body of [while waiting]. *)
Definition wait_body (dg : datagram) : Client.M bool :=
  let '(data, address) := recvfrom BUFSIZE dg in
  let sdata := Bytes.strip data in
  if Bytes.startswith sdata (b_ "kampai_peer_establish:") then
    let key := Bytes.suffix 32 sdata in
    Client.assign PeerHost (Client.set_peer_host (fst address)) ;;
    Client.assign PeerPort (Client.set_peer_port (snd address)) ;;
    pkey <- Client.lift (NaCl.PublicKey key) ;;
    Client.assign PeerPkey (Client.set_peer_pkey pkey) ;;
    skey <- Client.gets Client.self_skey ;;
    pkey <- Client.read Client.peer_pkey ;;
    b <- Client.new_Box skey pkey ;;
    Client.assign BoxSlot (Client.set_box b) ;;
    Client.emit (StderrWrite (LogPubkeyExchange (NaCl.public_key skey) key)) ;;
    host <- Client.read Client.peer_host ;;
    port <- Client.read Client.peer_port ;;
    sock_sendto (b_ "kampai_peer_establish:" ++ NaCl.public_key skey) (Some host) port ;;
    Client.emit (StderrWrite (LogKampai host port)) ;;
    Client.ret false
  else Client.ret true.

(** [get_input], lines 161-168. *)
Definition get_input_body (message : text) (nonce : bytes) : Client.M unit :=
  b <- Client.read Client.box ;;
  plain <- Client.lift (Utf8.encode message) ;;
  encrypted <- Client.lift (NaCl.Box_encrypt b nonce plain) ;;
  host <- Client.read Client.peer_host ;;
  port <- Client.read Client.peer_port ;;
  sock_sendto encrypted (Some host) port ;;
  Client.ret tt.

(** [run], lines 175-186: the write of line 186 is in the [else] of
    the [try], where nothing catches what it raises. *)
Definition run_body (dg : datagram) : Client.M unit :=
  let ciphertext := recv BUFSIZE dg in
  r <- Client.try (b <- Client.read Client.box ;;
                   plain <- Client.lift (NaCl.Box_decrypt b ciphertext) ;;
                   Client.lift (Utf8.decode plain)) ;;
  match r with
  | Raise _ => Client.ret tt
  | Ok plaintext =>
      stdout_write (Client.CR ++ s_ "        " ++ Client.CR ++ plaintext
                    ++ Client.LF ++ Client.prompt)
  end.

(** [Client(behaviour=behaviour)] up to the wait loop. *)
Definition start (bhv : Behaviour) (skey : bytes) : Process.t * list effect :=
  match init_prelude (Client.fresh bhv skey) with
  | (Ok _, c, out) => (Process.mk c Handshake, out)
  | (Raise e, c, out) => (Process.mk c (Crashed e), out)
  end.

Definition handshake_step (dg : datagram) : Client.M bool :=
  waiting <- wait_body dg ;;
  if waiting : bool then Client.ret true
  else Client.emit (StderrWrite LogNewline) ;; Client.input_call ;; Client.ret false.

Definition input_step (message : text) (nonce : bytes) : Client.M unit :=
  get_input_body message nonce ;; Client.input_call.

(** As [Process.step]; an exception in the input thread ends that
    thread only, one in [__init__] or in the loop of [run] ends the
    process. *)
Definition step (p : Process.t) (ev : event) : option (Process.t * list effect) :=
  match Process.stage p, ev with
  | Handshake, Datagram dg =>
      match handshake_step dg (Process.client p) with
      | (Ok true, c, out) => Some (Process.mk c Handshake, out)
      | (Ok false, c, out) => Some (Process.mk c (Duplex true), out)
      | (Raise e, c, out) => Some (Process.mk c (Crashed e), out)
      end
  | Duplex alive, Datagram dg =>
      match run_body dg (Process.client p) with
      | (Ok _, c, out) => Some (Process.mk c (Duplex alive), out)
      | (Raise e, c, out) => Some (Process.mk c (Crashed e), out)
      end
  | Duplex true, Line message nonce =>
      match input_step message nonce (Process.client p) with
      | (Ok _, c, out) => Some (Process.mk c (Duplex true), out)
      | (Raise _, c, out) => Some (Process.mk c (Duplex false), out)
      end
  | Duplex true, EndOfInput => Some (Process.mk (Process.client p) (Duplex false), [])
  | _, _ => None
  end.

Fixpoint steps (p : Process.t) (evs : list event) : option (Process.t * list effect) :=
  match evs with
  | [] => Some (p, [])
  | ev :: evs' =>
      match step p ev with
      | Some (p1, out1) =>
          match steps p1 evs' with
          | Some (p2, out2) => Some (p2, out1 ++ out2)
          | None => None
          end
      | None => None
      end
  end.

End WithOs.
End Hosted.

(** ** Two systems, for the examples

    On [loopback] every call succeeds for the host 127.0.0.1 and for
    no other, and [stdout] is UTF-8; [ascii_terminal] is the same
    system with a [stdout] that has the ASCII characters only. *)

Module Machine.

Definition local (h : string) : bool := String.eqb h "127.0.0.1".

Definition loopback : Os := {|
  resolves := fun _ => true;
  binds := fun a => local (fst a);
  carries := fun _ a => local (fst a);
  shows := fun _ => true
|}.


End Machine.

(** ** [main], lines 189-275

    [argparse], [urlparse] and [socket.gethostbyname] are not part of
    the repository: [main] is taken from the parsed arguments on, and
    the two look-ups are left open. *)

Module Main.






Section WithResolver.
(** [urlparse(s).netloc] *)
Variable netloc : string -> string.
(** [socket.gethostbyname(name)]; [None] when it raises. *)
Variable gethostbyname : string -> option string.



End WithResolver.


End Main.

(** * Properties *)

Unset Implicit Arguments.

(** ** Byte strings *)

Module BytesFacts.

Lemma xor_byte_cancel (x p : byte) :
  Bytes.xor_byte (Bytes.xor_byte x p) p = x.
Proof.
  unfold Bytes.xor_byte.
  rewrite <- (Byte.of_bits_to_bits x) at 2.
  destruct (Byte.to_bits x) as [a0 [a1 [a2 [a3 [a4 [a5 [a6 a7]]]]]]].
  destruct (Byte.to_bits p) as [p0 [p1 [p2 [p3 [p4 [p5 [p6 p7]]]]]]].
  rewrite Byte.to_bits_of_bits.
  repeat rewrite xorb_assoc, xorb_nilpotent, xorb_false_r.
  reflexivity.
Qed.

Lemma length_xor (m pad : bytes) :
  length m <= length pad -> length (Bytes.xor m pad) = length m.
Proof.
  revert pad; induction m as [|x m IH]; intros [|p pad] H; simpl in *;
    try reflexivity; try lia.
  rewrite IH by lia; reflexivity.
Qed.

Lemma xor_cancel (m pad : bytes) :
  length m <= length pad -> Bytes.xor (Bytes.xor m pad) pad = m.
Proof.
  revert pad; induction m as [|x m IH]; intros [|p pad] H; simpl in *;
    try reflexivity; try lia.
  rewrite xor_byte_cancel, IH by lia; reflexivity.
Qed.

Lemma eqb_refl (a : bytes) : Bytes.eqb a a = true.
Proof.
  induction a as [|x a IH]; simpl; [reflexivity|].
  rewrite IH, (Byte.byte_dec_lb eq_refl); reflexivity.
Qed.

Lemma eqb_eq (a b : bytes) : Bytes.eqb a b = true -> a = b.
Proof.
  revert b; induction a as [|x a IH]; intros [|y b] H; simpl in H;
    try discriminate; [reflexivity|].
  apply andb_prop in H as [Hx Hab].
  apply Byte.byte_dec_bl in Hx; f_equal; auto.
Qed.

Lemma startswith_app (prefix rest : bytes) :
  Bytes.startswith (prefix ++ rest) prefix = true.
Proof.
  induction prefix as [|p prefix IH]; simpl; [destruct rest; reflexivity|].
  rewrite IH, (Byte.byte_dec_lb eq_refl); reflexivity.
Qed.

Lemma startswith_inv (b prefix : bytes) :
  Bytes.startswith b prefix = true -> exists rest, b = prefix ++ rest.
Proof.
  revert b; induction prefix as [|p prefix IH]; intros b H.
  - exists b; reflexivity.
  - destruct b as [|x b]; simpl in H; [discriminate|].
    apply andb_prop in H as [Hx Hb].
    apply Byte.byte_dec_bl in Hx; subst x.
    destruct (IH _ Hb) as [rest ->]; exists rest; reflexivity.
Qed.

Lemma suffix_app (n : nat) (a b : bytes) :
  length b = n -> Bytes.suffix n (a ++ b) = b.
Proof.
  intros <-; unfold Bytes.suffix.
  rewrite length_app, Nat.add_sub, skipn_app, Nat.sub_diag, skipn_all.
  reflexivity.
Qed.

Lemma upto_app (n : nat) (a b : bytes) :
  length a = n -> Bytes.upto n (a ++ b) = a.
Proof.
  intros <-; unfold Bytes.upto.
  rewrite firstn_app, Nat.sub_diag, firstn_all, app_nil_r; reflexivity.
Qed.

Lemma from_app (n : nat) (a b : bytes) :
  length a = n -> Bytes.from n (a ++ b) = b.
Proof.
  intros <-; unfold Bytes.from.
  rewrite skipn_app, Nat.sub_diag, skipn_all; reflexivity.
Qed.

Lemma length_suffix (n : nat) (b : bytes) :
  length (Bytes.suffix n b) = Nat.min n (length b).
Proof. unfold Bytes.suffix; rewrite length_skipn; lia. Qed.

End BytesFacts.

(** ** The channel *)

Section Channel.
Context {sodium : Sodium}.

Lemma length_keystream (k nonce : bytes) (from len : nat) :
  length (NaCl.keystream k nonce from len) = len.
Proof. unfold NaCl.keystream; rewrite length_map, length_seq; reflexivity. Qed.

Lemma open_afternm (m nonce k : bytes) :
  NaCl.crypto_box_open_afternm (NaCl.crypto_box_afternm m nonce k) nonce k = Ok m.
Proof.
  unfold NaCl.crypto_box_open_afternm, NaCl.crypto_box_afternm.
  set (pad := NaCl.keystream k nonce 32 (length m)).
  set (c := Bytes.xor m pad).
  set (tag := crypto_onetimeauth (NaCl.keystream k nonce 0 32) c).
  assert (Hpad : length pad = length m) by apply length_keystream.
  assert (Hc : length c = length m)
    by (apply BytesFacts.length_xor; lia).
  assert (Htag : length tag = NaCl.MAC_SIZE)
    by apply crypto_onetimeauth_BYTES.
  rewrite length_app, Htag.
  replace (NaCl.MAC_SIZE + length c <? NaCl.MAC_SIZE) with false
    by (symmetry; apply Nat.ltb_ge; lia).
  rewrite (BytesFacts.upto_app _ _ _ Htag), (BytesFacts.from_app _ _ _ Htag).
  fold tag; rewrite BytesFacts.eqb_refl, Hc.
  fold pad; unfold c.
  rewrite BytesFacts.xor_cancel by lia; reflexivity.
Qed.

Lemma decrypt_encrypt_any (b : NaCl.Box) (nonce m : bytes) :
  length nonce = NaCl.NONCE_SIZE ->
  rbind (NaCl.Box_encrypt b nonce m) (NaCl.Box_decrypt b) = Ok m.
Proof.
  intros Hn; unfold NaCl.Box_encrypt, NaCl.Box_decrypt.
  rewrite Hn, Nat.eqb_refl; cbn [rbind].
  rewrite (BytesFacts.upto_app _ _ _ Hn), (BytesFacts.from_app _ _ _ Hn).
  rewrite Hn, Nat.eqb_refl.
  apply open_afternm.
Qed.

(** C1. Round trip: for every byte string [m] that is the UTF-8
    encoding of a text message, and whatever 24-byte nonce the call
    draws, decrypting with a box what the same box encrypted gives
    back exactly [m]. *)
Theorem decrypt_encrypt (b : NaCl.Box) (nonce m : bytes) (message : text) :
  length nonce = NaCl.NONCE_SIZE ->
  Utf8.encode message = Ok m ->
  rbind (NaCl.Box_encrypt b nonce m) (NaCl.Box_decrypt b) = Ok m.
Proof.
  intros Hn _; apply decrypt_encrypt_any; exact Hn.
Qed.

End Channel.

(** ** The body of the wait loop, case by case *)

Section WaitBody.
Context {sodium : Sodium}.

Ltac run_body_of dg :=
  destruct dg as [payload [host port]];
  unfold Client.wait_body, Client.tagged, Client.key_of, Client.stripped,
    recvfrom in *;
  cbn [fst snd] in *;
  generalize dependent (Bytes.strip (cut payload BUFSIZE)); intros sdata.

Ltac step_monad :=
  unfold Client.bind, Client.assign, Client.new_Box, Client.lift,
    Client.emit, Client.read, Client.gets, Client.ret, Client.raise;
  cbn [Client.set_peer_host Client.set_peer_port Client.set_peer_pkey
       Client.set_box Client.peer_host Client.peer_port Client.peer_pkey
       Client.box Client.self_skey Client.behaviour app fst snd].

(** A datagram without the tag: nothing happens. *)
Lemma wait_body_ignored (dg : datagram) (c : Client.t) :
  Client.tagged dg = false ->
  Client.wait_body dg c = (Ok true, c, []).
Proof.
  run_body_of dg; intros H; rewrite H; reflexivity.
Qed.

(** A tagged datagram whose last 32 bytes are fewer than 32:
    [PublicKey] raises, with the address already stored. *)
Lemma wait_body_short (dg : datagram) (c : Client.t) :
  Client.tagged dg = true ->
  length (Client.key_of dg) <> 32 ->
  Client.wait_body dg c =
    (Raise ValueError,
     Client.set_peer_port (snd (snd dg)) (Client.set_peer_host (fst (snd dg)) c),
     [Assign PeerHost; Assign PeerPort]).
Proof.
  run_body_of dg; intros Ht Hk; rewrite Ht.
  step_monad; unfold NaCl.PublicKey, NaCl.KEY_SIZE.
  apply Nat.eqb_neq in Hk; rewrite Hk; reflexivity.
Qed.

(** A tagged datagram with a 32-byte key from which the library
    makes no shared key: [Box] raises. *)
Lemma wait_body_refused (dg : datagram) (c : Client.t) :
  Client.tagged dg = true ->
  length (Client.key_of dg) = 32 ->
  crypto_box_beforenm (Client.key_of dg) (Client.self_skey c) = None ->
  Client.wait_body dg c =
    (Raise RuntimeError,
     Client.set_peer_pkey (Client.key_of dg)
       (Client.set_peer_port (snd (snd dg))
          (Client.set_peer_host (fst (snd dg)) c)),
     [Assign PeerHost; Assign PeerPort; Assign PeerPkey]).
Proof.
  run_body_of dg; intros Ht Hk Hb; rewrite Ht.
  step_monad; unfold NaCl.PublicKey, NaCl.KEY_SIZE.
  rewrite Hk, Nat.eqb_refl; step_monad.
  unfold NaCl.Box_new; rewrite Hb; reflexivity.
Qed.

(** A tagged datagram with a 32-byte key and a shared key: the peer
    and the box are stored, and the client answers. *)
Lemma wait_body_accepted (dg : datagram) (c : Client.t) (k : bytes) :
  Client.tagged dg = true ->
  length (Client.key_of dg) = 32 ->
  crypto_box_beforenm (Client.key_of dg) (Client.self_skey c) = Some k ->
  Client.wait_body dg c =
    (Ok false,
     Client.established c (snd dg) (Client.key_of dg) k,
     [Assign PeerHost; Assign PeerPort; Assign PeerPkey;
      NewBox (Client.self_skey c) (Client.key_of dg); Assign BoxSlot;
      StderrWrite (LogPubkeyExchange (NaCl.public_key (Client.self_skey c))
                     (Client.key_of dg));
      Sendto (Client.establish ++ NaCl.public_key (Client.self_skey c)) (snd dg);
      StderrWrite (LogKampai (fst (snd dg)) (snd (snd dg)))]).
Proof.
  run_body_of dg; intros Ht Hk Hb; rewrite Ht.
  step_monad; unfold NaCl.PublicKey, NaCl.KEY_SIZE.
  rewrite Hk, Nat.eqb_refl; step_monad.
  unfold NaCl.Box_new; rewrite Hb; reflexivity.
Qed.

End WaitBody.

(** ** [strip] *)

Module StripFacts.

Lemma lstrip_split (b : bytes) :
  exists ws, b = ws ++ Bytes.lstrip b.
Proof.
  induction b as [|x b [ws IH]]; [exists []; reflexivity|].
  simpl; destruct (Bytes.is_space x).
  - exists (x :: ws); simpl; f_equal; exact IH.
  - exists []; reflexivity.
Qed.

Lemma length_lstrip (b : bytes) : length (Bytes.lstrip b) <= length b.
Proof.
  destruct (lstrip_split b) as [ws H].
  rewrite H at 2; rewrite length_app; lia.
Qed.

(** [lstrip] leaves alone exactly what does not begin with whitespace. *)
Lemma lstrip_fixed (x : byte) (b : bytes) :
  Bytes.lstrip (x :: b) = x :: b -> Bytes.is_space x = false.
Proof.
  simpl; destruct (Bytes.is_space x); [|reflexivity].
  intros H; pose proof (length_lstrip b) as L.
  rewrite H in L; simpl in L; lia.
Qed.

Lemma lstrip_app_fixed (a b : bytes) :
  Bytes.lstrip (a ++ b) = a ++ b -> Bytes.lstrip a = a.
Proof.
  destruct a as [|x a]; [reflexivity|].
  intros H; apply lstrip_fixed in H; simpl; rewrite H; reflexivity.
Qed.

(** With no whitespace at the end, none is left at the end once the
    whitespace at the start is gone. *)
Lemma rstrip_lstrip (b : bytes) :
  Bytes.rstrip b = b -> Bytes.strip b = Bytes.lstrip b.
Proof.
  unfold Bytes.strip, Bytes.rstrip; intros H.
  destruct (lstrip_split b) as [ws Hb].
  assert (Hr : Bytes.lstrip (rev b) = rev b)
    by (rewrite <- (rev_involutive (Bytes.lstrip (rev b))), H; reflexivity).
  rewrite Hb, rev_app_distr in Hr.
  apply lstrip_app_fixed in Hr.
  rewrite Hr; apply rev_involutive.
Qed.

Lemma suffix_app_long (n : nat) (a b : bytes) :
  n <= length b -> Bytes.suffix n (a ++ b) = Bytes.suffix n b.
Proof.
  intros H; unfold Bytes.suffix.
  rewrite length_app, skipn_app.
  rewrite (skipn_all2 a) by lia; simpl.
  f_equal; lia.
Qed.

(** The key taken from stripped bytes is the end of the bytes as
    received when these do not end in whitespace. *)
Lemma suffix_strip (n : nat) (b : bytes) :
  Bytes.rstrip b = b -> n <= length (Bytes.strip b) ->
  Bytes.suffix n (Bytes.strip b) = Bytes.suffix n b.
Proof.
  intros H Hn; rewrite (rstrip_lstrip _ H) in *.
  destruct (lstrip_split b) as [ws Hb].
  rewrite Hb at 2; symmetry; apply suffix_app_long; exact Hn.
Qed.

End StripFacts.

(** ** The handshake *)

Section Handshake.
Context {sodium : Sodium}.

(** The four ways a pass of the wait loop can go. *)
Lemma wait_body_cases (dg : datagram) (c : Client.t) :
  (Client.tagged dg = false /\ Client.wait_body dg c = (Ok true, c, []))
  \/ (Client.tagged dg = true /\ length (Client.key_of dg) <> 32
      /\ fst (fst (Client.wait_body dg c)) = Raise ValueError
      /\ sent (snd (Client.wait_body dg c)) = [])
  \/ (Client.tagged dg = true /\ length (Client.key_of dg) = 32
      /\ crypto_box_beforenm (Client.key_of dg) (Client.self_skey c) = None
      /\ fst (fst (Client.wait_body dg c)) = Raise RuntimeError
      /\ sent (snd (Client.wait_body dg c)) = [])
  \/ (exists k,
        Client.tagged dg = true /\ length (Client.key_of dg) = 32
        /\ crypto_box_beforenm (Client.key_of dg) (Client.self_skey c) = Some k
        /\ fst (Client.wait_body dg c)
           = (Ok false, Client.established c (snd dg) (Client.key_of dg) k)
        /\ sent (snd (Client.wait_body dg c))
           = [(Client.establish ++ NaCl.public_key (Client.self_skey c), snd dg)]).
Proof.
  destruct (Client.tagged dg) eqn:Ht.
  2: { left; split; [reflexivity | apply wait_body_ignored; exact Ht]. }
  right.
  destruct (Nat.eq_dec (length (Client.key_of dg)) 32) as [Hk | Hk].
  2: { left; rewrite (wait_body_short dg c Ht Hk); repeat split; assumption. }
  right.
  destruct (crypto_box_beforenm (Client.key_of dg) (Client.self_skey c))
    as [k|] eqn:Hb.
  - right; exists k.
    rewrite (wait_body_accepted dg c k Ht Hk Hb); repeat split; assumption.
  - left; rewrite (wait_body_refused dg c Ht Hk Hb); repeat split; assumption.
Qed.

Lemma key_of_32 (dg : datagram) :
  (length (Client.key_of dg) =? 32) = (32 <=? length (Client.stripped dg)).
Proof.
  unfold Client.key_of; rewrite BytesFacts.length_suffix.
  destruct (32 <=? length (Client.stripped dg)) eqn:H.
  - apply Nat.leb_le in H; apply Nat.eqb_eq; lia.
  - apply Nat.leb_gt in H; apply Nat.eqb_neq; lia.
Qed.

(** Which datagrams are accepted. *)
Lemma accepted_eq (dg : datagram) (c : Client.t) :
  Client.accepted (Client.wait_body dg c)
  = Client.tagged dg && (32 <=? length (Client.stripped dg))
    && Client.can_box (Client.key_of dg) (Client.self_skey c).
Proof.
  rewrite <- key_of_32; unfold Client.can_box.
  destruct (wait_body_cases dg c)
    as [[Ht E] | [(Ht & Hk & E & _) | [(Ht & Hk & Hb & E & _) | (k & Ht & Hk & Hb & E & _)]]];
    rewrite Ht; try rewrite E.
  - reflexivity.
  - apply Nat.eqb_neq in Hk; rewrite Hk.
    destruct (Client.wait_body dg c) as [[r c'] out]; simpl in E; subst r.
    reflexivity.
  - rewrite Hk, Hb.
    destruct (Client.wait_body dg c) as [[r c'] out]; simpl in E; subst r.
    reflexivity.
  - rewrite Hk, Hb.
    destruct (Client.wait_body dg c) as [[r c'] out]; simpl in E.
    inversion E; reflexivity.
Qed.

(** C2, as amended.  When a pass of the wait loop accepts a
    datagram, the client sends the tag followed by its own public
    key to the sender, and nothing else; this is so whatever
    [creator (behaviour c)] is, for the joiner as for the creator. *)
Theorem answer_in_either_role (dg : datagram) (c c' : Client.t) (out : list effect) :
  Client.wait_body dg c = (Ok false, c', out) ->
  sent out
  = [(Client.establish ++ NaCl.public_key (Client.self_skey c), snd dg)].
Proof.
  intros H.
  destruct (wait_body_cases dg c)
    as [[_ E] | [(_ & _ & E & _) | [(_ & _ & _ & E & _) | (k & _ & _ & _ & _ & E)]]];
    rewrite H in E; simpl in E; try discriminate.
  exact E.
Qed.

(** Every tagged datagram shorter than 32 bytes once stripped ends the
    process in the wait loop. *)
Lemma short_tagged_raises (c : Client.t) (dg : datagram) :
  Client.tagged dg = true ->
  length (Client.stripped dg) < 32 ->
  Process.step (Process.mk c Handshake) (Datagram dg)
  = Some (Process.mk
            (Client.set_peer_port (snd (snd dg))
               (Client.set_peer_host (fst (snd dg)) c))
            (Crashed ValueError),
          [Assign PeerHost; Assign PeerPort]).
Proof.
  intros Ht Hl.
  unfold Process.step, Process.handshake_step, Client.bind;
    cbn [Process.stage Process.client].
  rewrite (wait_body_short dg c Ht); [reflexivity|].
  unfold Client.key_of; rewrite BytesFacts.length_suffix; lia.
Qed.

(** C3, at the failing input.  A datagram that is the tag and
    nothing more, from any address, in the wait loop of any client:
    [PublicKey] raises [ValueError] on the 22 bytes it is given, the
    process ends, and the sender's address is already in the peer
    slots. *)
Theorem tag_alone_raises (c : Client.t) (a : address) :
  Process.step (Process.mk c Handshake) (Datagram (Example.tag_alone, a))
  = Some (Process.mk
            (Client.set_peer_port (snd a) (Client.set_peer_host (fst a) c))
            (Crashed ValueError),
          [Assign PeerHost; Assign PeerPort]).
Proof.
  unfold Process.step, Process.handshake_step, Client.bind; cbn [Process.stage Process.client].
  rewrite (wait_body_short (Example.tag_alone, a) c).
  - reflexivity.
  - vm_compute; reflexivity.
  - vm_compute; discriminate.
Qed.

End Handshake.

Section Acceptance.
Context {sodium : Sodium}.

Lemma accepted_inv (dg : datagram) (c : Client.t) :
  Client.accepted (Client.wait_body dg c) = true ->
  exists k,
    crypto_box_beforenm (Client.key_of dg) (Client.self_skey c) = Some k
    /\ 32 <= length (Client.stripped dg)
    /\ fst (Client.wait_body dg c)
       = (Ok false, Client.established c (snd dg) (Client.key_of dg) k).
Proof.
  intros H; pose proof (accepted_eq dg c) as E; rewrite H in E.
  symmetry in E; apply andb_prop in E as [E Hb]; apply andb_prop in E as [Ht Hl].
  unfold Client.can_box in Hb.
  destruct (crypto_box_beforenm (Client.key_of dg) (Client.self_skey c))
    as [k|] eqn:Hk; [|discriminate].
  exists k; split; [reflexivity|]; split; [apply Nat.leb_le; exact Hl|].
  rewrite <- key_of_32 in Hl; apply Nat.eqb_eq in Hl.
  rewrite (wait_body_accepted dg c k Ht Hl Hk); reflexivity.
Qed.



End Acceptance.

(** ** The life of the process *)

Section Lifetime.
Context {sodium : Sodium}.

Lemma writes_app (s : slot) (out out' : list effect) :
  Process.writes s (out ++ out') = Process.writes s out + Process.writes s out'.
Proof. unfold Process.writes; rewrite filter_app, length_app; reflexivity. Qed.

Lemma boxes_app (out out' : list effect) :
  Process.boxes (out ++ out') = Process.boxes out + Process.boxes out'.
Proof. unfold Process.boxes; rewrite filter_app, length_app; reflexivity. Qed.

Lemma quiet_nil : Process.quiet [].
Proof. split; [intros []|]; reflexivity. Qed.

Lemma quiet_app (out out' : list effect) :
  Process.quiet out -> Process.quiet out' -> Process.quiet (out ++ out').
Proof.
  intros [W B] [W' B']; split; [intros s; rewrite writes_app, W, W'|
                                rewrite boxes_app, B, B']; reflexivity.
Qed.

(** The receive loop: the client is left as it was, nothing is
    raised, and at most one text is written. *)
Lemma run_body_frame (dg : datagram) (c : Client.t) :
  exists out,
    Client.run_body dg c = (Ok tt, c, out) /\ Process.quiet out /\ sent out = [].
Proof.
  unfold Client.run_body, Client.bind, Client.try, Client.read, Client.lift.
  destruct (Client.box c) as [b|].
  2: { eexists; split; [reflexivity | split; [apply quiet_nil | reflexivity]]. }
  destruct (NaCl.Box_decrypt b (recv BUFSIZE dg)) as [plain|e].
  2: { eexists; split; [reflexivity | split; [apply quiet_nil | reflexivity]]. }
  destruct (Utf8.decode plain) as [t|e];
    eexists; (split; [reflexivity | split; [|reflexivity]]);
    split; [intros [] | | intros [] | ]; reflexivity.
Qed.

(** The input thread: the client is left as it was. *)
Lemma input_step_frame (message : text) (nonce : bytes) (c : Client.t) :
  exists r out,
    Process.input_step message nonce c = (r, c, out) /\ Process.quiet out.
Proof.
  unfold Process.input_step, Client.get_input_body, Client.input_call,
    Client.bind, Client.read, Client.lift, Client.emit.
  destruct (Client.box c) as [b|];
    [|do 2 eexists; split; [reflexivity | apply quiet_nil]].
  destruct (Utf8.encode message) as [plain|e];
    [|do 2 eexists; split; [reflexivity | apply quiet_nil]].
  destruct (NaCl.Box_encrypt b nonce plain) as [encrypted|e];
    [|do 2 eexists; split; [reflexivity | apply quiet_nil]].
  destruct (Client.peer_host c) as [host|];
    [|do 2 eexists; split; [reflexivity | apply quiet_nil]].
  destruct (Client.peer_port c) as [port|];
    [|do 2 eexists; split; [reflexivity | apply quiet_nil]].
  do 2 eexists; split; [reflexivity|].
  split; [intros []|]; reflexivity.
Qed.

(** After the handshake every step keeps the client and the phase
    (the input thread may end), and is quiet. *)
Lemma duplex_step (c : Client.t) (alive : bool) (ev : event)
    (p' : Process.t) (out' : list effect) :
  Process.step (Process.mk c (Duplex alive)) ev = Some (p', out') ->
  Process.client p' = c
  /\ (exists alive', Process.stage p' = Duplex alive')
  /\ Process.quiet out'.
Proof.
  unfold Process.step; cbn [Process.stage Process.client].
  destruct ev as [dg | message nonce | ].
  - destruct (run_body_frame dg c) as (out & E & Q & _); rewrite E.
    destruct alive; intros H; inversion H; subst; cbn;
      (split; [reflexivity|]; split; [eauto | assumption]).
  - destruct alive; [|discriminate].
    destruct (input_step_frame message nonce c) as (r & out & E & Q); rewrite E.
    destruct r; intros H; inversion H; subst; cbn;
      (split; [reflexivity|]; split; [eauto | assumption]).
  - destruct alive; [|discriminate].
    intros H; inversion H; subst; cbn; split; [reflexivity|].
    split; [eauto | apply quiet_nil].
Qed.

Lemma duplex_steps (evs : list event) (c : Client.t) (alive : bool)
    (p' : Process.t) (out' : list effect) :
  Process.steps (Process.mk c (Duplex alive)) evs = Some (p', out') ->
  Process.client p' = c
  /\ (exists alive', Process.stage p' = Duplex alive')
  /\ Process.quiet out'.
Proof.
  revert c alive p' out'; induction evs as [|ev evs IH]; intros c alive p' out'.
  - cbn; intros H; inversion H; subst; cbn.
    split; [reflexivity|]; split; [eauto | apply quiet_nil].
  - cbn [Process.steps].
    destruct (Process.step (Process.mk c (Duplex alive)) ev) as [[p1 out1]|] eqn:E1;
      [|discriminate].
    destruct (duplex_step _ _ _ _ _ E1) as (Hc & [alive1 Hs] & Q1).
    destruct p1 as [c1 s1]; cbn in Hc, Hs; subst c1 s1.
    destruct (Process.steps (Process.mk c (Duplex alive1)) evs) as [[p2 out2]|] eqn:E2;
      [|discriminate].
    destruct (IH _ _ _ _ E2) as (Hc & Hs & Q2).
    intros [= <- <-].
    split; [exact Hc|]; split; [exact Hs | apply quiet_app; assumption].
Qed.

End Lifetime.

Section Session.
Context {sodium : Sodium}.

(** [strip] keeps a stretch of the bytes: a tagged datagram has the
    tag somewhere in what was received. *)
Lemma tagged_carries_tag (dg : datagram) :
  Client.tagged dg = true ->
  exists before after,
    fst (recvfrom BUFSIZE dg) = before ++ Client.establish ++ after.
Proof.
  unfold Client.tagged, Client.stripped, Bytes.strip.
  set (data := fst (recvfrom BUFSIZE dg)); intros H.
  destruct (StripFacts.lstrip_split data) as [ws Hd].
  destruct (StripFacts.lstrip_split (rev (Bytes.lstrip data))) as [ws' Hr].
  apply BytesFacts.startswith_inv in H as [rest Hs].
  exists ws, (rest ++ rev ws').
  rewrite Hd at 1; f_equal.
  rewrite app_assoc, <- Hs; unfold Bytes.rstrip.
  rewrite <- (rev_involutive (Bytes.lstrip data)) at 1.
  rewrite Hr at 1; apply rev_app_distr.
Qed.

Lemma start_creator (bhv : Behaviour) (skey : bytes) :
  creator bhv = true ->
  Process.start bhv skey
  = (Process.mk (Client.fresh bhv skey) Handshake,
     [Bind (client_host bhv, client_port bhv);
      StderrWrite (LogStarted true (client_host bhv) (client_port bhv))]).
Proof.
  intros H; unfold Process.start, Client.init_prelude, Client.bind,
    Client.gets, Client.emit, Client.fresh; cbn [Client.behaviour app].
  rewrite H; reflexivity.
Qed.

Lemma start_joiner (bhv : Behaviour) (skey : bytes) (host : string) :
  creator bhv = false -> target_host bhv = Some host ->
  Process.start bhv skey
  = (Process.mk (Client.fresh bhv skey) Handshake,
     [Bind (client_host bhv, client_port bhv);
      StderrWrite (LogStarted false (client_host bhv) (client_port bhv));
      Sendto (Client.establish ++ NaCl.public_key skey) (host, target_port bhv);
      StderrWrite (LogConnecting host (target_port bhv))]).
Proof.
  intros H T; unfold Process.start, Client.init_prelude, Client.bind,
    Client.gets, Client.emit, Client.fresh; cbn [Client.behaviour app].
  rewrite H, T; reflexivity.
Qed.

Lemma start_no_target (bhv : Behaviour) (skey : bytes) :
  creator bhv = false -> target_host bhv = None ->
  Process.start bhv skey
  = (Process.mk (Client.fresh bhv skey) (Crashed TypeError),
     [Bind (client_host bhv, client_port bhv);
      StderrWrite (LogStarted false (client_host bhv) (client_port bhv))]).
Proof.
  intros H T; unfold Process.start, Client.init_prelude, Client.bind,
    Client.gets, Client.emit, Client.raise, Client.fresh;
    cbn [Client.behaviour app].
  rewrite H, T; reflexivity.
Qed.

Lemma quiet_start (bhv : Behaviour) (skey : bytes) :
  Process.quiet (snd (Process.start bhv skey))
  /\ Process.client (fst (Process.start bhv skey)) = Client.fresh bhv skey
  /\ (forall alive, Process.stage (fst (Process.start bhv skey)) <> Duplex alive).
Proof.
  destruct (creator bhv) eqn:H.
  - rewrite (start_creator bhv skey H); cbn.
    split; [split; [intros []|]; reflexivity|]; split; [reflexivity|discriminate].
  - destruct (target_host bhv) as [host|] eqn:T.
    + rewrite (start_joiner bhv skey host H T); cbn.
      split; [split; [intros []|]; reflexivity|]; split; [reflexivity|discriminate].
    + rewrite (start_no_target bhv skey H T); cbn.
      split; [split; [intros []|]; reflexivity|]; split; [reflexivity|discriminate].
Qed.

(** A step of the wait loop: the datagram is passed over, or the
    process ends on an exception, or the peer and the box are set. *)
Lemma handshake_step_cases (c : Client.t) (ev : event)
    (p' : Process.t) (out' : list effect) :
  Process.step (Process.mk c Handshake) ev = Some (p', out') ->
  exists dg, ev = Datagram dg
  /\ ((Client.tagged dg = false /\ p' = Process.mk c Handshake /\ out' = [])
      \/ (Client.tagged dg = true
          /\ (exists e, Process.stage p' = Crashed e)
          /\ (forall s, Process.writes s out' <= 1) /\ Process.boxes out' = 0)
      \/ (Client.tagged dg = true
          /\ (exists k, p' = Process.mk
                (Client.established c (snd dg) (Client.key_of dg) k) (Duplex true))
          /\ (forall s, Process.writes s out' = 1) /\ Process.boxes out' = 1)).
Proof.
  unfold Process.step; cbn [Process.stage Process.client].
  destruct ev as [dg | |]; try discriminate.
  intros H; exists dg; split; [reflexivity|].
  unfold Process.handshake_step, Client.bind at 1 in H.
  destruct (Client.tagged dg) eqn:Ht.
  2: { rewrite (wait_body_ignored dg c Ht) in H; cbn in H.
       injection H as <- <-; left; auto. }
  right.
  destruct (Nat.eq_dec (length (Client.key_of dg)) 32) as [Hk | Hk].
  2: { rewrite (wait_body_short dg c Ht Hk) in H; injection H as <- <-.
       left; split; [reflexivity|]; split; [eexists; reflexivity|].
       split; [intros []; cbn; lia | reflexivity]. }
  destruct (crypto_box_beforenm (Client.key_of dg) (Client.self_skey c))
    as [k|] eqn:Hb.
  - rewrite (wait_body_accepted dg c k Ht Hk Hb) in H.
    cbn in H; injection H as <- <-.
    right; split; [reflexivity|]; split; [exists k; reflexivity|].
    split; [intros []|]; reflexivity.
  - rewrite (wait_body_refused dg c Ht Hk Hb) in H; injection H as <- <-.
    left; split; [reflexivity|]; split; [eexists; reflexivity|].
    split; [intros []; cbn; lia | reflexivity].
Qed.

End Session.

Section Invariant.
Context {sodium : Sodium}.

Lemma established_set (c : Client.t) (a : address) (key k : bytes) :
  Process.peer_set (Client.established c a key k).
Proof. exists a, key, k; reflexivity. Qed.

(** What holds of a process in each phase, with its effects so far. *)
Lemma reachable_inv (p : Process.t) (out : list effect) :
  Process.reachable p out ->
  (Process.stage p = Handshake ->
     Process.peer_unset (Process.client p) /\ Process.quiet out)
  /\ (forall alive, Process.stage p = Duplex alive ->
        Process.peer_set (Process.client p)
        /\ (forall s, Process.writes s out = 1) /\ Process.boxes out = 1)
  /\ (forall e, Process.stage p = Crashed e ->
        (forall s, Process.writes s out <= 1) /\ Process.boxes out <= 1).
Proof.
  induction 1 as [bhv skey p out Hstart | p out ev p' out' Hreach IH Hstep].
  - destruct (quiet_start bhv skey) as (Q & Hc & Hd).
    rewrite Hstart in Q, Hc, Hd; cbn [fst snd] in Q, Hc, Hd.
    split; [|split].
    + intros _; split; [rewrite Hc; repeat split | exact Q].
    + intros alive Hs; destruct (Hd alive Hs).
    + intros e _; destruct Q as [W B]; split; [intros s; rewrite W|rewrite B]; lia.
  - destruct IH as (IHh & IHd & IHc).
    destruct p as [c st]; cbn [Process.stage Process.client] in *.
    destruct st as [| alive | e].
    + destruct (IHh eq_refl) as [U [W B]].
      destruct (handshake_step_cases c ev p' out' Hstep)
        as (dg & -> & [(_ & -> & ->) | [(_ & [e He] & W' & B')
                                       | (_ & [k ->] & W' & B')]]).
      * rewrite app_nil_r; cbn [Process.stage Process.client].
        split; [intros _; split; [exact U | split; assumption]|].
        split; [intros ? [=] | intros ? [=]].
      * rewrite He; split; [intros [=]|]; split; [intros ? [=]|].
        intros _ _; split; [intros s; rewrite writes_app, W; apply W'|].
        rewrite boxes_app, B, B'; lia.
      * cbn [Process.stage Process.client].
        split; [intros [=]|]; split; [|intros ? [=]].
        intros _ _; split; [apply established_set|].
        split; [intros s; rewrite writes_app, W, W'; reflexivity|].
        rewrite boxes_app, B, B'; reflexivity.
    + destruct (IHd alive eq_refl) as (S & W & B).
      destruct (duplex_step c alive ev p' out' Hstep) as (Hc & [alive' Hs] & [W' B']).
      rewrite Hs, Hc.
      split; [intros [=]|]; split; [|intros ? [=]].
      intros _ _; split; [exact S|].
      split; [intros s; rewrite writes_app, W, W'; reflexivity|].
      rewrite boxes_app, B, B'; reflexivity.
    + unfold Process.step in Hstep; cbn in Hstep; discriminate.
Qed.

(** C8.  In every run of the process each of the peer slots and the
    box is assigned at most once and at most one box is made.  While
    the process waits, nothing of it is assigned and no box exists;
    once the handshake is over all of it has been assigned exactly
    once and exactly one box made, and from then on whatever the
    process takes in leaves the client as it is (peer, key and box
    included), keeps it out of the wait loop, assigns nothing and
    makes no box. *)
Theorem peer_and_box_set_once (p : Process.t) (out : list effect) :
  Process.reachable p out ->
  (forall s, Process.writes s out <= 1) /\ Process.boxes out <= 1
  /\ (Process.stage p = Handshake ->
        Process.peer_unset (Process.client p) /\ Process.quiet out)
  /\ (forall alive, Process.stage p = Duplex alive ->
        Process.peer_set (Process.client p)
        /\ (forall s, Process.writes s out = 1) /\ Process.boxes out = 1
        /\ forall evs p' out',
             Process.steps p evs = Some (p', out') ->
             Process.client p' = Process.client p
             /\ (exists alive', Process.stage p' = Duplex alive')
             /\ Process.quiet out').
Proof.
  intros Hreach; destruct (reachable_inv p out Hreach) as (Ih & Id & Ic).
  assert (Hle : (forall s, Process.writes s out <= 1) /\ Process.boxes out <= 1).
  { destruct (Process.stage p) as [| alive | e] eqn:Hs.
    - destruct (Ih eq_refl) as [_ [W B]]; split; [intros s; rewrite W|rewrite B]; lia.
    - destruct (Id alive eq_refl) as (_ & W & B);
        split; [intros s; rewrite W|rewrite B]; lia.
    - exact (Ic e eq_refl). }
  destruct Hle as [Hw Hb].
  split; [exact Hw|]; split; [exact Hb|]; split; [exact Ih|].
  intros alive Hs; destruct (Id alive Hs) as (S & W & B).
  split; [exact S|]; split; [exact W|]; split; [exact B|].
  intros evs p' out' Hsteps.
  destruct p as [c st]; cbn [Process.stage Process.client] in *; subst st.
  exact (duplex_steps evs c alive p' out' Hsteps).
Qed.

End Invariant.

(** ** The receive loop *)

Section Receive.
Context {sodium : Sodium}.

(** What [run] writes for a text it has received. *)
Lemma run_body_eq (c : Client.t) (b : NaCl.Box) (dg : datagram) :
  Client.box c = Some b ->
  Client.run_body dg c
  = (Ok tt, c,
     match rbind (NaCl.Box_decrypt b (recv BUFSIZE dg)) Utf8.decode with
     | Ok t =>
         [StdoutWrite (Client.CR ++ s_ "        " ++ Client.CR ++ t
                       ++ Client.LF ++ Client.prompt)]
     | Raise _ => []
     end).
Proof.
  intros Hb; unfold Client.run_body, Client.bind, Client.try, Client.read,
    Client.lift; rewrite Hb.
  destruct (NaCl.Box_decrypt b (recv BUFSIZE dg)) as [plain|e]; [|reflexivity].
  cbn [rbind]; destruct (Utf8.decode plain) as [t|e]; reflexivity.
Qed.


(** C10.  The receive loop does not know where a datagram comes
    from: the same payload from any two addresses has the same
    outcome; and what is shown depends only on whether the payload
    decrypts under the box and decodes, so that a payload from
    another address than the peer's is dropped only when one of the
    two fails. *)
Theorem receive_ignores_source (c : Client.t) (b : NaCl.Box) (payload : bytes)
    (a a' : address) :
  Client.box c = Some b ->
  Client.run_body (payload, a) c = Client.run_body (payload, a') c
  /\ displayed (snd (Client.run_body (payload, a) c))
     = match rbind (NaCl.Box_decrypt b (cut payload BUFSIZE)) Utf8.decode with
       | Ok t => [Client.CR ++ s_ "        " ++ Client.CR ++ t
                  ++ Client.LF ++ Client.prompt]
       | Raise _ => []
       end.
Proof.
  intros Hb; split; [reflexivity|].
  rewrite (run_body_eq c b (payload, a) Hb); unfold recv; cbn [fst snd].
  destruct (rbind (NaCl.Box_decrypt b (cut payload BUFSIZE)) Utf8.decode);
    reflexivity.
Qed.

End Receive.

(** ** The properties on the two peers *)

Section Examples.
Import Example.

(** C1 on peer A's box and the line "hello". *)
Lemma decrypt_encrypt_hello :
  length nonce = NaCl.NONCE_SIZE
  /\ rbind (NaCl.Box_encrypt boxA nonce (b_ "hello")) (NaCl.Box_decrypt boxA)
     = Ok (b_ "hello").
Proof.
  split; [reflexivity|].
  apply (decrypt_encrypt boxA nonce (b_ "hello") hello); reflexivity.
Defined.

(** The two boxes are interoperable: B reads what A wrote. *)
Lemma hello_end_to_end :
  Client.box readyA = Some boxA /\ Client.box readyB = Some boxB
  /\ sent (snd (Client.get_input_body hello nonce readyA))
     = [(fst (hello_datagram addrA), addrB)]
  /\ displayed (snd (Client.run_body (hello_datagram addrA) readyB))
     = [Client.CR ++ s_ "        " ++ Client.CR ++ hello ++ Client.LF
        ++ Client.prompt].
Proof. repeat split; vm_compute; reflexivity. Qed.

(** C2 as stated fails: B, a joiner that has sent its establish
    datagram at the start, sends it once more when it accepts A's. *)
Lemma joiner_answers :
  creator B = false
  /\ sent outB0 = [(Client.establish ++ pkB, addrA)]
  /\ Process.stage pB0 = Handshake
  /\ Process.stage pB1 = Duplex true
  /\ sent outB1 = [(Client.establish ++ pkB, addrA)].
Proof. repeat split; vm_compute; reflexivity. Qed.

(** C2 as amended, on the creator A and on the joiner B. *)
Lemma answer_in_either_role_AB :
  (Client.wait_body from_B waitingA
   = (Ok false, readyA, snd (Client.wait_body from_B waitingA))
   /\ sent (snd (Client.wait_body from_B waitingA))
      = [(Client.establish ++ NaCl.public_key skA, addrB)])
  /\ (Client.wait_body from_A waitingB
      = (Ok false, readyB, snd (Client.wait_body from_A waitingB))
      /\ sent (snd (Client.wait_body from_A waitingB))
         = [(Client.establish ++ NaCl.public_key skB, addrA)]).
Proof.
  split; (split; [vm_compute; reflexivity|]).
  - apply (answer_in_either_role from_B waitingA readyA); vm_compute; reflexivity.
  - apply (answer_in_either_role from_A waitingB readyB); vm_compute; reflexivity.
Defined.

(** C3: the tag followed by 12 bytes is accepted, with a key that
    begins inside the tag. *)
Lemma tag_and_12_accepted :
  Client.accepted (Client.wait_body (tag_and_12, outsider) waitingA) = true
  /\ Client.peer_pkey (snd (fst (Client.wait_body (tag_and_12, outsider) waitingA)))
     = Some (b_ "mpai_peer_establish:" ++ repeat x07 12).
Proof. split; vm_compute; reflexivity. Qed.

End Examples.

Section Runs.
Import Example.

Lemma reachable_pA0 : Process.reachable pA0 outA0.
Proof. apply (@Process.reach_start standin A skA); reflexivity. Qed.

Lemma reachable_pA1 : Process.reachable pA1 (outA0 ++ outA1).
Proof.
  apply (@Process.reach_step standin pA0 outA0 (Datagram from_B) pA1 outA1 reachable_pA0).
  vm_compute; reflexivity.
Qed.


(** C8 on A once it has accepted B, and two events later. *)
Lemma peer_and_box_set_once_A :
  Process.reachable pA1 (outA0 ++ outA1)
  /\ Process.stage pA1 = Duplex true
  /\ Process.writes PeerHost (outA0 ++ outA1) = 1
  /\ Process.boxes (outA0 ++ outA1) = 1
  /\ forall p' out',
       Process.steps pA1 [Datagram (hello_datagram addrB); Line hello nonce]
       = Some (p', out') ->
       Process.client p' = Process.client pA1.
Proof.
  split; [exact reachable_pA1|]; split; [reflexivity|].
  destruct (peer_and_box_set_once pA1 (outA0 ++ outA1) reachable_pA1)
    as (_ & _ & _ & Hd).
  destruct (Hd true eq_refl) as (_ & W & B & Hsteps).
  split; [exact (W PeerHost)|]; split; [exact B|].
  intros p' out' H; exact (proj1 (Hsteps _ p' out' H)).
Defined.


(** C10 on B: A's "hello" is shown when it comes from the outsider's
    address as when it comes from A's. *)
Lemma hello_from_anywhere :
  Client.box readyB = Some boxB
  /\ Client.run_body (fst (hello_datagram addrA), outsider) readyB
     = Client.run_body (fst (hello_datagram addrA), addrA) readyB
  /\ displayed (snd (Client.run_body (fst (hello_datagram addrA), outsider) readyB))
     = [Client.CR ++ s_ "        " ++ Client.CR ++ hello ++ Client.LF ++ Client.prompt].
Proof.
  assert (Hb : Client.box readyB = Some boxB) by (vm_compute; reflexivity).
  split; [exact Hb|].
  destruct (receive_ignores_source readyB boxB (fst (hello_datagram addrA))
              outsider addrA Hb) as [E D].
  split; [exact E|].
  rewrite D; vm_compute; reflexivity.
Defined.

End Runs.

(** ** From the sender's terminal to the receiver's *)

Module Utf8Facts.

Ltac Zify.zify_post_hook ::= Z.to_euclidean_division_equations.








End Utf8Facts.

Section EndToEnd.
Context {sodium : Sodium}.

Lemma cut_all (payload : bytes) (bufsize : nat) :
  length payload <= bufsize -> cut payload bufsize = payload.
Proof.
  revert bufsize; induction payload as [|x payload IH]; intros [|n] H;
    cbn in *; try reflexivity; try lia.
  rewrite IH by lia; reflexivity.
Qed.

Lemma length_afternm (m nonce k : bytes) :
  length (NaCl.crypto_box_afternm m nonce k) = 16 + length m.
Proof.
  unfold NaCl.crypto_box_afternm.
  rewrite length_app, crypto_onetimeauth_BYTES, BytesFacts.length_xor;
    [reflexivity | rewrite length_keystream; lia].
Qed.


End EndToEnd.

Section EndToEndExample.
Import Example.


End EndToEndExample.

(** * More of the program *)

(** ** The receive buffer *)

Section Buffer.
Context {sodium : Sodium}.

Lemma cut_app_long (payload extra : bytes) (bufsize : nat) :
  bufsize <= length payload -> cut (payload ++ extra) bufsize = cut payload bufsize.
Proof.
  revert bufsize; induction payload as [|x payload IH]; intros [|n] H;
    cbn in *; try reflexivity; try lia.
  - destruct extra; reflexivity.
  - rewrite IH by lia; reflexivity.
Qed.

(** X9.  What a datagram holds beyond the first 4096 bytes never
    reaches the program: in whatever phase, a process takes a payload
    of 4096 bytes or more exactly as it takes the same payload with
    anything appended. *)
Theorem beyond_buffer_ignored (p : Process.t) (payload extra : bytes) (a : address) :
  BUFSIZE <= length payload ->
  Process.step p (Datagram (payload ++ extra, a))
  = Process.step p (Datagram (payload, a)).
Proof.
  intros H.
  assert (Hw : Client.wait_body (payload ++ extra, a) (Process.client p)
               = Client.wait_body (payload, a) (Process.client p)).
  { unfold Client.wait_body, recvfrom; cbn [fst snd].
    rewrite (cut_app_long payload extra BUFSIZE H); reflexivity. }
  assert (Hr : Client.run_body (payload ++ extra, a) (Process.client p)
               = Client.run_body (payload, a) (Process.client p)).
  { unfold Client.run_body, recv; cbn [fst snd].
    rewrite (cut_app_long payload extra BUFSIZE H); reflexivity. }
  unfold Process.step, Process.handshake_step, Client.bind.
  rewrite Hw, Hr; reflexivity.
Qed.

End Buffer.

(** ** Establish datagrams *)

Module StripMore.

Lemma lstrip_head (b : bytes) (x : byte) (r : bytes) :
  Bytes.lstrip b = x :: r -> Bytes.is_space x = false.
Proof.
  induction b as [|y b IH]; cbn [Bytes.lstrip]; [discriminate|].
  destruct (Bytes.is_space y) eqn:E; [exact IH|].
  intros [= <- _]; exact E.
Qed.

Lemma lstrip_keeps (x : byte) (r : bytes) :
  Bytes.is_space x = false -> Bytes.lstrip (x :: r) = x :: r.
Proof. intros H; cbn [Bytes.lstrip]; rewrite H; reflexivity. Qed.

Lemma rstrip_keeps (b : bytes) (x : byte) :
  Bytes.is_space x = false -> Bytes.rstrip (b ++ [x]) = b ++ [x].
Proof.
  intros H; unfold Bytes.rstrip.
  rewrite rev_app_distr; cbn [rev app].
  rewrite (lstrip_keeps x (rev b) H); cbn [rev].
  rewrite rev_involutive; reflexivity.
Qed.

(** What [strip] returns does not end in whitespace. *)
Lemma strip_last (b : bytes) (d : byte) :
  Bytes.strip b <> [] -> Bytes.is_space (last (Bytes.strip b) d) = false.
Proof.
  unfold Bytes.strip, Bytes.rstrip.
  destruct (Bytes.lstrip (rev (Bytes.lstrip b))) as [|x r] eqn:E;
    [intros H; destruct H; reflexivity|].
  intros _; cbn [rev]; rewrite last_last.
  exact (lstrip_head _ x r E).
Qed.

Lemma last_skipn (n : nat) (b : bytes) (d : byte) :
  n < length b -> last (skipn n b) d = last b d.
Proof.
  revert n; induction b as [|x b IH]; intros n H; [cbn in H; lia|].
  destruct n as [|n]; [reflexivity|].
  cbn [skipn]; cbn [length] in H.
  rewrite IH by lia.
  destruct b as [|y b]; [cbn in H; lia | reflexivity].
Qed.

Lemma last_suffix (n : nat) (b : bytes) (d : byte) :
  0 < n -> b <> [] -> last (Bytes.suffix n b) d = last b d.
Proof.
  intros Hn Hb; unfold Bytes.suffix; apply last_skipn.
  destruct b; [destruct Hb; reflexivity | cbn [length]; lia].
Qed.

End StripMore.

Section Establish.
Context {sodium : Sodium}.



(** X3.  The key stored when a datagram is accepted is 32 bytes long
    and never ends in a whitespace byte: a public key that does end in
    one is never stored as it was sent, whatever the datagram. *)
Theorem stored_key_never_ends_in_space
    (dg : datagram) (c c' : Client.t) (out : list effect) :
  Client.wait_body dg c = (Ok false, c', out) ->
  exists key,
    Client.peer_pkey c' = Some key /\ length key = 32
    /\ Bytes.is_space (last key x00) = false.
Proof.
  intros H.
  assert (Ha : Client.accepted (Client.wait_body dg c) = true)
    by (rewrite H; reflexivity).
  destruct (accepted_inv dg c Ha) as (k & _ & Hl & E).
  rewrite H in E; cbn [fst] in E; injection E as ->.
  exists (Client.key_of dg); split; [reflexivity|].
  assert (Hne : Client.stripped dg <> [])
    by (intros Hnil; rewrite Hnil in Hl; cbn in Hl; lia).
  split.
  - unfold Client.key_of; rewrite BytesFacts.length_suffix; lia.
  - unfold Client.key_of.
    rewrite StripMore.last_suffix by (lia || exact Hne).
    apply StripMore.strip_last; exact Hne.
Qed.

End Establish.

(** ** A handshake of two peers *)

Section TwoPeers.
Context {sodium : Sodium}.



End TwoPeers.

(** ** The two loops after the handshake *)

Section AfterHandshake.
Context {sodium : Sodium}.








End AfterHandshake.

(** ** These properties on the two peers *)

Section MoreExamples.
Import Example.


(** X3 on A accepting B. *)
Lemma stored_key_of_B :
  Client.wait_body from_B waitingA
  = (Ok false, readyA, snd (Client.wait_body from_B waitingA))
  /\ exists key,
       Client.peer_pkey readyA = Some key /\ length key = 32
       /\ Bytes.is_space (last key x00) = false.
Proof.
  assert (H : Client.wait_body from_B waitingA
              = (Ok false, readyA, snd (Client.wait_body from_B waitingA)))
    by (vm_compute; reflexivity).
  split; [exact H|].
  exact (stored_key_never_ends_in_space from_B waitingA readyA _ H).
Defined.




(** X9 on A in the wait loop: 4096 bytes, and one more. *)
Lemma one_byte_too_many :
  BUFSIZE <= length (repeat x41 4096)
  /\ Process.step pA0 (Datagram (repeat x41 4096 ++ [x42], outsider))
     = Process.step pA0 (Datagram (repeat x41 4096, outsider)).
Proof.
  assert (H : BUFSIZE <= length (repeat x41 4096))
    by (apply Nat.leb_le; vm_compute; reflexivity).
  split; [exact H|].
  exact (beyond_buffer_ignored pA0 (repeat x41 4096) [x42] outsider H).
Defined.

End MoreExamples.

(** ** Waiting *)

Section Waiting.
Context {sodium : Sodium}.




End Waiting.

Section MoreRuns.
Import Example.


End MoreRuns.

(** * The wire format and the operating system *)

(** ** The key in an establish datagram *)

Module StripLast.

Lemma rstrip_snoc_space (b : bytes) (x : byte) :
  Bytes.is_space x = true -> Bytes.rstrip (b ++ [x]) = Bytes.rstrip b.
Proof.
  intros H; unfold Bytes.rstrip.
  rewrite rev_app_distr; cbn [rev app Bytes.lstrip]; rewrite H; reflexivity.
Qed.

(** [rstrip] stops at the last byte that is no whitespace. *)
Lemma rstrip_upto (a : bytes) (z : byte) (r : bytes) :
  Bytes.is_space z = false ->
  exists r', Bytes.rstrip (a ++ z :: r) = a ++ z :: r'.
Proof.
  intros Hz; induction r as [|w r IH] using rev_ind.
  - exists []; apply StripMore.rstrip_keeps; exact Hz.
  - destruct (Bytes.is_space w) eqn:Hw.
    + destruct IH as [r' IH]; exists r'.
      change (a ++ z :: r ++ [w]) with (a ++ (z :: r) ++ [w]).
      rewrite app_assoc, (rstrip_snoc_space _ w Hw); exact IH.
    + exists (r ++ [w]).
      change (a ++ z :: r ++ [w]) with (a ++ (z :: r) ++ [w]).
      rewrite app_assoc; apply StripMore.rstrip_keeps; exact Hw.
Qed.

Lemma rstrip_split (b : bytes) : exists ws, b = Bytes.rstrip b ++ ws.
Proof.
  unfold Bytes.rstrip.
  destruct (StripFacts.lstrip_split (rev b)) as [ws H].
  exists (rev ws).
  rewrite <- rev_app_distr, <- H, rev_involutive; reflexivity.
Qed.

End StripLast.

Section KeyMaterial.
Context {sodium : Sodium}.

(** What the loop looks at of the tag followed by a key that ends in
    one whitespace byte: the tag and the key without that byte. *)
Lemma stripped_key_ending_in_space (key' : bytes) (x : byte) (a : address) :
  length key' = 31 -> Bytes.is_space (last key' x00) = false ->
  Bytes.is_space x = true ->
  Client.stripped (Client.establish ++ key' ++ [x], a) = Client.establish ++ key'.
Proof.
  intros Hl Hs Hx.
  assert (Hne : key' <> []) by (intros ->; discriminate Hl).
  destruct (exists_last Hne) as (k & y & ->).
  rewrite last_last in Hs.
  unfold Client.stripped, recvfrom; cbn [fst].
  rewrite cut_all
    by (rewrite !length_app in *; change (length Client.establish) with 22;
        cbn [length] in *; unfold BUFSIZE; lia).
  assert (He : exists r, Client.establish = x6b :: r) by (eexists; reflexivity).
  destruct He as [r He].
  unfold Bytes.strip; rewrite He; cbn [app].
  rewrite (StripMore.lstrip_keeps x6b _ eq_refl).
  change (x6b :: r ++ (k ++ [y]) ++ [x]) with ((x6b :: r) ++ (k ++ [y]) ++ [x]).
  rewrite (app_assoc (x6b :: r)), (StripLast.rstrip_snoc_space _ x Hx).
  rewrite (app_assoc (x6b :: r)), (StripMore.rstrip_keeps _ y Hs).
  rewrite <- app_assoc; reflexivity.
Qed.

(** C4.  The key the loop takes is cut from the stripped bytes, so a
    public key that ends in a whitespace byte does not arrive.  Take
    the datagram the other side sends for such a key: the tag followed
    by the 32 bytes of the key.  As received it starts with the tag and
    its last 32 bytes are the key; yet the key the loop takes is
    another, and whenever the datagram is accepted the peer key stored
    is not the key sent.  When only the last byte of the key is
    whitespace, the datagram counts as tagged and the key taken is the
    colon of the tag followed by the first 31 bytes of the key. *)
Theorem key_ending_in_whitespace_is_mangled
    (c : Client.t) (a : address) (key : bytes) :
  length key = 32 -> Bytes.is_space (last key x00) = true ->
  let dg := (b_ "kampai_peer_establish:" ++ key, a) in
  Bytes.startswith (fst (recvfrom BUFSIZE dg)) (b_ "kampai_peer_establish:") = true
  /\ Bytes.suffix 32 (fst (recvfrom BUFSIZE dg)) = key
  /\ Client.key_of dg <> key
  /\ (forall c' out,
        Client.wait_body dg c = (Ok false, c', out) ->
        Client.peer_pkey c' <> Some key)
  /\ (forall key' x,
        key = key' ++ [x] -> Bytes.is_space (last key' x00) = false ->
        Client.tagged dg = true /\ Client.key_of dg = x3a :: key').
Proof.
  intros Hl Hs dg.
  assert (Hcut : fst (recvfrom BUFSIZE dg) = b_ "kampai_peer_establish:" ++ key).
  { unfold recvfrom, dg; cbn [fst].
    apply cut_all; rewrite length_app, Hl.
    change (length (b_ "kampai_peer_establish:")) with 22; unfold BUFSIZE; lia. }
  assert (Hkey : Client.key_of dg <> key).
  { intros E.
    assert (Hne : Client.stripped dg <> []).
    { intros Hnil; unfold Client.key_of in E; rewrite Hnil in E.
      rewrite <- E in Hl; discriminate Hl. }
    pose proof (StripMore.strip_last (fst (recvfrom BUFSIZE dg)) x00 Hne) as Hlast.
    fold (Client.stripped dg) in Hlast.
    rewrite <- (StripMore.last_suffix 32 _ x00) in Hlast by (lia || exact Hne).
    fold (Client.key_of dg) in Hlast; rewrite E, Hs in Hlast; discriminate Hlast. }
  split; [rewrite Hcut; apply BytesFacts.startswith_app|].
  split; [rewrite Hcut; apply BytesFacts.suffix_app; exact Hl|].
  split; [exact Hkey|]; split.
  - intros c' out H.
    assert (Ha : Client.accepted (Client.wait_body dg c) = true)
      by (rewrite H; reflexivity).
    destruct (accepted_inv dg c Ha) as (k & _ & _ & E).
    rewrite H in E; cbn [fst] in E; injection E as ->.
    cbn [Client.established Client.peer_pkey].
    intros [= E]; exact (Hkey E).
  - intros key' x -> Hs'.
    rewrite last_last in Hs.
    assert (Hl' : length key' = 31)
      by (rewrite length_app in Hl; cbn [length] in Hl; lia).
    pose proof (stripped_key_ending_in_space key' x a Hl' Hs' Hs) as Hstrip.
    unfold Client.tagged, Client.key_of.
    change (Client.stripped dg)
      with (Client.stripped (Client.establish ++ key' ++ [x], a)).
    rewrite Hstrip; split; [apply BytesFacts.startswith_app|].
    change Client.establish with (b_ "kampai_peer_establish" ++ [x3a]).
    rewrite <- app_assoc; cbn [app].
    apply BytesFacts.suffix_app; cbn [length]; rewrite Hl'; reflexivity.
Qed.

End KeyMaterial.

(** ** Datagrams without the tag *)

Module WireFacts.

(** Before a tag that begins with no whitespace, [lstrip] passes over
    the whitespace and nothing else. *)
Lemma starts_lstrip (data : bytes) (z : byte) (tag : bytes) :
  Bytes.is_space z = false ->
  Wire.starts_after_whitespace data (z :: tag)
  = Bytes.startswith (Bytes.lstrip data) (z :: tag).
Proof.
  intros Hz; induction data as [|x data IH]; [reflexivity|].
  cbn [Wire.starts_after_whitespace Bytes.lstrip].
  destruct (Bytes.is_space x) eqn:Hx.
  - rewrite <- IH; cbn [Bytes.startswith].
    destruct (Byte.eqb x z) eqn:E; [|reflexivity].
    apply Byte.byte_dec_bl in E; subst x; congruence.
  - rewrite andb_false_l, orb_false_r; reflexivity.
Qed.

(** [rstrip] takes nothing from a tag that ends with no whitespace. *)
Lemma startswith_rstrip (b tag : bytes) (z : byte) :
  Bytes.is_space z = false ->
  Bytes.startswith (Bytes.rstrip b) (tag ++ [z]) = Bytes.startswith b (tag ++ [z]).
Proof.
  intros Hz; apply Bool.eq_true_iff_eq; split; intros H.
  - apply BytesFacts.startswith_inv in H as [rest H].
    destruct (StripLast.rstrip_split b) as [ws Hb].
    rewrite Hb, H, <- app_assoc; apply BytesFacts.startswith_app.
  - apply BytesFacts.startswith_inv in H as [rest ->].
    rewrite <- app_assoc; cbn [app].
    destruct (StripLast.rstrip_upto tag z rest Hz) as [r' ->].
    change (tag ++ z :: r') with (tag ++ [z] ++ r').
    rewrite app_assoc; apply BytesFacts.startswith_app.
Qed.

Lemma starts_app (a b tag : bytes) :
  Wire.starts_after_whitespace a tag = true ->
  Wire.starts_after_whitespace (a ++ b) tag = true.
Proof.
  induction a as [|x a IH]; cbn [Wire.starts_after_whitespace app]; intros H.
  - rewrite orb_false_r in H.
    apply BytesFacts.startswith_inv in H as [rest H].
    destruct tag; [|discriminate H].
    destruct b; reflexivity.
  - apply orb_prop in H as [H | H].
    + apply BytesFacts.startswith_inv in H as [rest H].
      change (x :: a ++ b) with ((x :: a) ++ b).
      rewrite H, <- app_assoc, BytesFacts.startswith_app; reflexivity.
    + apply andb_prop in H as [Hx H].
      rewrite Hx, (IH H); apply orb_true_r.
Qed.

Lemma cut_split (payload : bytes) (bufsize : nat) :
  exists rest, payload = cut payload bufsize ++ rest.
Proof.
  revert bufsize; induction payload as [|x payload IH]; intros [|n];
    cbn [cut app]; try (eexists; reflexivity).
  destruct (IH n) as [rest H]; exists rest; f_equal; exact H.
Qed.

End WireFacts.

Section Untagged.
Context {sodium : Sodium}.

(** The test of the wait loop, said of the bytes received: they
    begin with the tag once leading whitespace is passed over.  The
    [strip] at the other end never decides it. *)
Lemma tagged_spec (dg : datagram) :
  Client.tagged dg
  = Wire.starts_after_whitespace (fst (recvfrom BUFSIZE dg)) (b_ "kampai_peer_establish:").
Proof.
  unfold Client.tagged, Client.stripped, Bytes.strip.
  change Client.establish with (b_ "kampai_peer_establish" ++ [x3a]).
  rewrite (WireFacts.startswith_rstrip _ _ x3a eq_refl).
  change (b_ "kampai_peer_establish" ++ [x3a]) with (x6b :: b_ "ampai_peer_establish:").
  change (b_ "kampai_peer_establish:") with (x6b :: b_ "ampai_peer_establish:").
  symmetry; apply WireFacts.starts_lstrip; reflexivity.
Qed.

Lemma untagged_payload (dg : datagram) :
  Wire.starts_after_whitespace (fst dg) (b_ "kampai_peer_establish:") = false ->
  Client.tagged dg = false.
Proof.
  intros H; rewrite tagged_spec.
  destruct (Wire.starts_after_whitespace (fst (recvfrom BUFSIZE dg)) _) eqn:E;
    [|reflexivity].
  unfold recvfrom in E; cbn [fst] in E.
  destruct (WireFacts.cut_split (fst dg) BUFSIZE) as [rest Hp].
  rewrite Hp, (WireFacts.starts_app _ rest _ E) in H; discriminate H.
Qed.

Context {os : Os}.

Lemma hosted_wait_body_ignored (dg : datagram) (c : Client.t) :
  Client.tagged dg = false ->
  Hosted.wait_body dg c = (Ok true, c, []).
Proof.
  destruct dg as [payload [host port]].
  unfold Hosted.wait_body, Client.tagged, Client.stripped, recvfrom; cbn [fst snd].
  change (b_ "kampai_peer_establish:") with Client.establish.
  intros H; rewrite H; reflexivity.
Qed.

(** C6, as amended.  A process in the wait loop that receives a
    datagram whose bytes, leading whitespace passed over, do not begin
    with the tag, is afterwards the very process it was, on whatever
    system it runs: no peer slot is assigned, no box has been made, it
    has no effect at all (so nothing is sent), and it still waits. *)
Theorem untagged_changes_nothing (p : Process.t) (out : list effect) (dg : datagram) :
  Process.reachable p out ->
  Process.stage p = Handshake ->
  Wire.starts_after_whitespace (fst dg) (b_ "kampai_peer_establish:") = false ->
  Process.step p (Datagram dg) = Some (p, [])
  /\ Hosted.step p (Datagram dg) = Some (p, [])
  /\ Process.peer_unset (Process.client p)
  /\ Process.boxes out = 0.
Proof.
  intros Hreach Hs Hw.
  pose proof (untagged_payload dg Hw) as Ht.
  destruct (reachable_inv p out Hreach) as (Ih & _).
  destruct (Ih Hs) as [U [_ B]].
  destruct p as [c st]; cbn [Process.stage] in Hs; subst st.
  split; [|split; [|split; assumption]].
  - unfold Process.step, Process.handshake_step, Client.bind;
      cbn [Process.stage Process.client].
    rewrite (wait_body_ignored dg c Ht); reflexivity.
  - unfold Hosted.step, Hosted.handshake_step, Client.bind;
      cbn [Process.stage Process.client].
    rewrite (hosted_wait_body_ignored dg c Ht); reflexivity.
Qed.

End Untagged.

(** ** The calls of the socket *)

Section SocketFacts.
Context {os : Os}.

Lemma port_ok_c_int (port : Z) : Socket.port_ok port = true -> Socket.c_int port = true.
Proof.
  unfold Socket.port_ok, Socket.c_int; intros H.
  apply andb_prop in H as [H0 H1]; apply Z.leb_le in H0, H1.
  apply andb_true_intro; split; apply Z.leb_le; lia.
Qed.

Lemma sockaddr_ok (h : string) (port : Z) :
  resolves h = true -> Socket.port_ok port = true ->
  Socket.sockaddr (Some h) port = Ok (h, port).
Proof.
  intros Hr Hp; unfold Socket.sockaddr.
  rewrite (port_ok_c_int port Hp), Hr, Hp; reflexivity.
Qed.

(** An address the conversion lets through is the one it was given. *)
Lemma sockaddr_inv (host : option string) (port : Z) (a : address) :
  Socket.sockaddr host port = Ok a ->
  host = Some (fst a) /\ port = snd a
  /\ resolves (fst a) = true /\ Socket.port_ok port = true.
Proof.
  unfold Socket.sockaddr; destruct host as [h|]; [|discriminate].
  destruct (Socket.c_int port); [|discriminate].
  destruct (resolves h) eqn:Hr; [|discriminate].
  destruct (Socket.port_ok port) eqn:Hp; [|discriminate].
  cbn [negb]; intros [= <-]; auto.
Qed.

(** A port outside 0..65535 never gets as far as the system. *)
Lemma sockaddr_bad_port (h : string) (port : Z) :
  Socket.port_ok port = false ->
  Socket.sockaddr (Some h) port = Raise OverflowError
  \/ Socket.sockaddr (Some h) port = Raise OSError.
Proof.
  intros Hp; unfold Socket.sockaddr.
  destruct (Socket.c_int port); [|left; reflexivity].
  destruct (resolves h); [|right; reflexivity].
  rewrite Hp; left; reflexivity.
Qed.

Lemma bind_ok (h : string) (port : Z) :
  resolves h = true -> Socket.port_ok port = true -> binds (h, port) = true ->
  Socket.bind h port = Ok (h, port).
Proof.
  intros Hr Hp Hb; unfold Socket.bind.
  rewrite (sockaddr_ok h port Hr Hp); cbn [rbind]; rewrite Hb; reflexivity.
Qed.

Lemma sendto_ok (data : bytes) (h : string) (port : Z) :
  resolves h = true -> Socket.port_ok port = true ->
  (N.of_nat (length data) <= Socket.MAX_PAYLOAD)%N ->
  carries data (h, port) = true ->
  Socket.sendto data (Some h) port = Ok (h, port).
Proof.
  intros Hr Hp Hl Hc; unfold Socket.sendto.
  rewrite (sockaddr_ok h port Hr Hp); cbn [rbind].
  apply N.leb_le in Hl; rewrite Hl, Hc; reflexivity.
Qed.

Lemma sendto_inv (data : bytes) (host : option string) (port : Z) (a : address) :
  Socket.sendto data host port = Ok a ->
  host = Some (fst a) /\ port = snd a
  /\ resolves (fst a) = true /\ Socket.port_ok port = true
  /\ (N.of_nat (length data) <= Socket.MAX_PAYLOAD)%N.
Proof.
  unfold Socket.sendto.
  destruct (Socket.sockaddr host port) as [a'|e] eqn:E; [|discriminate].
  cbn [rbind].
  destruct (N.of_nat (length data) <=? Socket.MAX_PAYLOAD)%N eqn:Hl; [|discriminate].
  destruct (carries data a'); [|discriminate].
  cbn [andb]; intros [= <-].
  destruct (sockaddr_inv host port a' E) as (H1 & H2 & H3 & H4).
  apply N.leb_le in Hl; auto.
Qed.

(** A datagram too long for UDP is never sent, whatever the system. *)
Lemma sendto_too_long (data : bytes) (host : option string) (port : Z) :
  (Socket.MAX_PAYLOAD < N.of_nat (length data))%N ->
  exists e, Socket.sendto data host port = Raise e.
Proof.
  intros Hl; unfold Socket.sendto.
  destruct (Socket.sockaddr host port) as [a|e]; [|exists e; reflexivity].
  cbn [rbind]; apply N.leb_gt in Hl; rewrite Hl; exists OSError; reflexivity.
Qed.

End SocketFacts.

(** ** The start of a session *)

Section SessionStart.
Context {sodium : Sodium} {os : Os}.

(** [__init__] up to the wait loop, by the outcome of its two calls. *)
Lemma hosted_start_eq (bhv : Behaviour) (skey : bytes) :
  Hosted.start bhv skey
  = match Socket.bind (client_host bhv) (client_port bhv) with
    | Raise e => (Process.mk (Client.fresh bhv skey) (Crashed e), [])
    | Ok a =>
        let started :=
          [Bind a;
           StderrWrite (LogStarted (creator bhv) (client_host bhv) (client_port bhv))] in
        if creator bhv
        then (Process.mk (Client.fresh bhv skey) Handshake, started)
        else
          match Socket.sendto (b_ "kampai_peer_establish:" ++ NaCl.public_key skey)
                  (target_host bhv) (target_port bhv) with
          | Raise e => (Process.mk (Client.fresh bhv skey) (Crashed e), started)
          | Ok a' =>
              (Process.mk (Client.fresh bhv skey) Handshake,
               started
               ++ [Sendto (b_ "kampai_peer_establish:" ++ NaCl.public_key skey) a';
                   StderrWrite (LogConnecting (fst a') (snd a'))])
          end
    end.
Proof.
  unfold Hosted.start, Hosted.init_prelude, Hosted.sock_bind, Hosted.sock_sendto,
    Client.bind, Client.gets, Client.emit, Client.lift, Client.ret, Client.fresh;
    cbn [Client.behaviour Client.self_skey].
  destruct (Socket.bind (client_host bhv) (client_port bhv)) as [a|e];
    [|reflexivity].
  destruct (creator bhv); cbn [negb]; [reflexivity|].
  destruct (Socket.sendto _ (target_host bhv) (target_port bhv)) as [a'|e];
    reflexivity.
Qed.

(** C7.  With a 32-byte secret key drawn, on a system that binds
    the socket to the client address: a joiner whose target host is
    given, resolves, has a port in 0..65535 and is reached by the
    system sends one datagram before it waits, the 22 bytes
    "kampai_peer_establish:" followed by its 32-byte public key, to the
    target address; a creator sends nothing.  Both then are in the
    wait loop, with no peer slot assigned. *)
Theorem start_of_session (bhv : Behaviour) (skey : bytes) :
  length skey = 32 ->
  resolves (client_host bhv) = true ->
  Socket.port_ok (client_port bhv) = true ->
  binds (client_host bhv, client_port bhv) = true ->
  (forall host, creator bhv = false -> target_host bhv = Some host ->
     resolves host = true -> Socket.port_ok (target_port bhv) = true ->
     carries (b_ "kampai_peer_establish:" ++ NaCl.public_key skey)
       (host, target_port bhv) = true ->
     fst (Hosted.start bhv skey) = Process.mk (Client.fresh bhv skey) Handshake
     /\ sent (snd (Hosted.start bhv skey))
        = [(b_ "kampai_peer_establish:" ++ NaCl.public_key skey,
            (host, target_port bhv))]
     /\ length (b_ "kampai_peer_establish:") = 22
     /\ length (NaCl.public_key skey) = 32)
  /\ (creator bhv = true ->
      fst (Hosted.start bhv skey) = Process.mk (Client.fresh bhv skey) Handshake
      /\ sent (snd (Hosted.start bhv skey)) = []).
Proof.
  intros Hlen Hr Hp Hb.
  pose proof (crypto_scalarmult_BYTES skey Hlen) as Hpk.
  fold (NaCl.public_key skey) in Hpk.
  rewrite hosted_start_eq, (bind_ok _ _ Hr Hp Hb); cbn zeta.
  split.
  - intros host Hc Ht Hr' Hp' Hc'; rewrite Hc, Ht.
    rewrite (sendto_ok _ host (target_port bhv) Hr' Hp');
      [| rewrite length_app, Hpk; apply N.leb_le; reflexivity | exact Hc'].
    repeat split; exact Hpk.
  - intros Hc; rewrite Hc; split; reflexivity.
Qed.

End SessionStart.

(** ** The wait loop on an operating system *)

Section HostedHandshake.
Context {sodium : Sodium} {os : Os}.

Ltac hosted_body_of dg :=
  destruct dg as [payload [host port]];
  unfold Hosted.wait_body, Client.wait_body, Client.tagged, Client.key_of,
    Client.stripped, recvfrom in *;
  cbn [fst snd] in *;
  change (b_ "kampai_peer_establish:") with Client.establish;
  generalize dependent (Bytes.strip (cut payload BUFSIZE)); intros sdata.

Ltac hosted_monad :=
  unfold Hosted.sock_sendto, Client.bind, Client.assign, Client.new_Box,
    Client.lift, Client.emit, Client.read, Client.gets, Client.ret, Client.raise;
  cbn [Client.set_peer_host Client.set_peer_port Client.set_peer_pkey
       Client.set_box Client.peer_host Client.peer_port Client.peer_pkey
       Client.box Client.self_skey Client.behaviour app fst snd].

(** Where [PublicKey] or [Box] raises, the socket is not reached. *)
Lemma hosted_wait_body_short (dg : datagram) (c : Client.t) :
  Client.tagged dg = true -> length (Client.key_of dg) <> 32 ->
  Hosted.wait_body dg c = Client.wait_body dg c.
Proof.
  hosted_body_of dg; intros Ht Hk; rewrite Ht.
  hosted_monad; unfold NaCl.PublicKey, NaCl.KEY_SIZE.
  apply Nat.eqb_neq in Hk; rewrite Hk; reflexivity.
Qed.

Lemma hosted_wait_body_refused (dg : datagram) (c : Client.t) :
  Client.tagged dg = true -> length (Client.key_of dg) = 32 ->
  crypto_box_beforenm (Client.key_of dg) (Client.self_skey c) = None ->
  Hosted.wait_body dg c = Client.wait_body dg c.
Proof.
  hosted_body_of dg; intros Ht Hk Hb; rewrite Ht.
  hosted_monad; unfold NaCl.PublicKey, NaCl.KEY_SIZE.
  rewrite Hk, Nat.eqb_refl; hosted_monad.
  unfold NaCl.Box_new; rewrite Hb; reflexivity.
Qed.

(** Where the peer and the box are stored, the answer is still to be
    sent: when [sendto] raises, [__init__] ends with the peer set. *)
Lemma hosted_wait_body_accepted (dg : datagram) (c : Client.t) (k : bytes) :
  Client.tagged dg = true -> length (Client.key_of dg) = 32 ->
  crypto_box_beforenm (Client.key_of dg) (Client.self_skey c) = Some k ->
  Hosted.wait_body dg c
  = match Socket.sendto (Client.establish ++ NaCl.public_key (Client.self_skey c))
            (Some (fst (snd dg))) (snd (snd dg)) with
    | Ok _ => Client.wait_body dg c
    | Raise e =>
        (Raise e, Client.established c (snd dg) (Client.key_of dg) k,
         [Assign PeerHost; Assign PeerPort; Assign PeerPkey;
          NewBox (Client.self_skey c) (Client.key_of dg); Assign BoxSlot;
          StderrWrite (LogPubkeyExchange (NaCl.public_key (Client.self_skey c))
                         (Client.key_of dg))])
    end.
Proof.
  intros Ht Hk Hb; rewrite (wait_body_accepted dg c k Ht Hk Hb).
  revert Ht Hk Hb; hosted_body_of dg; intros Ht Hk Hb; rewrite Ht.
  hosted_monad; unfold NaCl.PublicKey, NaCl.KEY_SIZE.
  rewrite Hk, Nat.eqb_refl; hosted_monad.
  unfold NaCl.Box_new; rewrite Hb; hosted_monad.
  destruct (Socket.sendto _ (Some host) port) as [a|e] eqn:E; [|reflexivity].
  destruct (sendto_inv _ _ _ _ E) as (Hh & Hp & _).
  destruct a as [h p]; cbn [fst snd] in Hh, Hp.
  injection Hh as <-; subst p; reflexivity.
Qed.

(** A pass that ends the loop on a system is one that ends it when
    every call returns, to an address the socket can name. *)
Lemma hosted_accepted_inv (dg : datagram) (c c' : Client.t) (out : list effect) :
  Hosted.wait_body dg c = (Ok false, c', out) ->
  Client.wait_body dg c = (Ok false, c', out)
  /\ resolves (fst (snd dg)) = true /\ Socket.port_ok (snd (snd dg)) = true.
Proof.
  destruct (Client.tagged dg) eqn:Ht.
  2: { rewrite (hosted_wait_body_ignored dg c Ht); discriminate. }
  destruct (Nat.eq_dec (length (Client.key_of dg)) 32) as [Hk | Hk].
  2: { rewrite (hosted_wait_body_short dg c Ht Hk), (wait_body_short dg c Ht Hk).
       discriminate. }
  destruct (crypto_box_beforenm (Client.key_of dg) (Client.self_skey c))
    as [k|] eqn:Hb.
  2: { rewrite (hosted_wait_body_refused dg c Ht Hk Hb),
         (wait_body_refused dg c Ht Hk Hb); discriminate. }
  rewrite (hosted_wait_body_accepted dg c k Ht Hk Hb).
  destruct (Socket.sendto _ _ _) as [a|e] eqn:E; [|discriminate].
  intros H; split; [exact H|].
  destruct (sendto_inv _ _ _ _ E) as (Hh & Hp & Hr & Hpo & _).
  injection Hh as Hh; rewrite Hh; auto.
Qed.

(** A line typed once the box is there, by the outcome of [sendto]. *)
Lemma hosted_line_step (c : Client.t) (b : NaCl.Box) (host : string) (port : Z)
    (message : text) (plain nonce : bytes) :
  Client.box c = Some b -> Client.peer_host c = Some host ->
  Client.peer_port c = Some port ->
  Utf8.encode message = Ok plain -> length nonce = NaCl.NONCE_SIZE ->
  let payload := nonce ++ NaCl.crypto_box_afternm plain nonce (NaCl.shared_key b) in
  Hosted.step (Process.mk c (Duplex true)) (Line message nonce)
  = match Socket.sendto payload (Some host) port with
    | Ok a =>
        Some (Process.mk c (Duplex true), [Sendto payload a; StdoutWrite Client.prompt])
    | Raise _ => Some (Process.mk c (Duplex false), [])
    end.
Proof.
  intros Hb Hh Hp He Hn payload.
  unfold Hosted.step, Hosted.input_step, Hosted.get_input_body,
    Hosted.sock_sendto, Client.input_call, Client.bind, Client.read,
    Client.lift, Client.emit, Client.ret, NaCl.Box_encrypt;
    cbn [Process.stage Process.client].
  rewrite Hb, He, Hn, Nat.eqb_refl, Hh, Hp; fold payload.
  destruct (Socket.sendto payload (Some host) port); reflexivity.
Qed.

(** X5.  Once a datagram is accepted, a line that encodes and, with
    the 24 bytes of the nonce and the 16 of the authenticator, fits a
    UDP datagram is sent, as one datagram, to the address the accepted
    datagram came from, when the system carries datagrams there; the
    target the client was started with plays no part.  A longer line is
    not sent: [sendto] raises, which ends the input thread. *)
Theorem lines_go_to_first_sender
    (dg : datagram) (c c' : Client.t) (out : list effect)
    (message : text) (plain nonce : bytes) :
  Hosted.wait_body dg c = (Ok false, c', out) ->
  Utf8.encode message = Ok plain ->
  length nonce = NaCl.NONCE_SIZE ->
  ((N.of_nat (length plain) + 40 <= Socket.MAX_PAYLOAD)%N ->
   (forall payload, carries payload (snd dg) = true) ->
   exists payload,
     length payload = 40 + length plain
     /\ Hosted.step (Process.mk c' (Duplex true)) (Line message nonce)
        = Some (Process.mk c' (Duplex true),
                [Sendto payload (snd dg); StdoutWrite Client.prompt]))
  /\ ((Socket.MAX_PAYLOAD < N.of_nat (length plain) + 40)%N ->
      Hosted.step (Process.mk c' (Duplex true)) (Line message nonce)
      = Some (Process.mk c' (Duplex false), [])).
Proof.
  intros H He Hn.
  destruct (hosted_accepted_inv dg c c' out H) as (Hi & Hr & Hp).
  assert (Ha : Client.accepted (Client.wait_body dg c) = true)
    by (rewrite Hi; reflexivity).
  destruct (accepted_inv dg c Ha) as (k & _ & _ & E).
  rewrite Hi in E; cbn [fst] in E; injection E as ->.
  destruct dg as [payload0 [host port]]; cbn [fst snd] in Hr, Hp |- *.
  match goal with
  | |- context [Hosted.step (Process.mk ?c1 _) _] =>
      rewrite (hosted_line_step c1
                 (NaCl.mkBox (Client.self_skey c)
                    (Client.key_of (payload0, (host, port))) k)
                 host port message plain nonce eq_refl eq_refl eq_refl He Hn)
  end.
  cbn [NaCl.shared_key].
  set (payload := nonce ++ NaCl.crypto_box_afternm plain nonce k).
  assert (Hlen : length payload = 40 + length plain)
    by (unfold payload; rewrite length_app, length_afternm, Hn; reflexivity).
  split.
  - intros Hfit Hcarries; exists payload; split; [exact Hlen|].
    rewrite (sendto_ok payload host port Hr Hp);
      [reflexivity | rewrite Hlen; lia | apply Hcarries].
  - intros Hlong.
    destruct (sendto_too_long payload (Some host) port) as [e ->];
      [rewrite Hlen; lia | reflexivity].
Qed.

End HostedHandshake.

(** ** The receive loop on an operating system *)

Section HostedReceive.
Context {sodium : Sodium} {os : Os}.





End HostedReceive.

(** ** From the command line to the wait loop *)

Section FromMain.
Context {sodium : Sodium} {os : Os}.
Variable netloc : string -> string.
Variable gethostbyname : string -> option string.





End FromMain.

(** ** These properties on the two peers and the two systems *)

Section HostedExamples.
Import Example.

(** C4 on A: B's side sends a key that ends in a space. *)
Lemma key_ending_in_space_is_mangled :
  (length key_ending_in_space = 32
   /\ Bytes.is_space (last key_ending_in_space x00) = true)
  /\ Bytes.suffix 32
       (fst (recvfrom BUFSIZE (b_ "kampai_peer_establish:" ++ key_ending_in_space, addrB)))
     = key_ending_in_space
  /\ Client.key_of (b_ "kampai_peer_establish:" ++ key_ending_in_space, addrB)
     = x3a :: repeat x01 31
  /\ Client.accepted
       (Client.wait_body (b_ "kampai_peer_establish:" ++ key_ending_in_space, addrB)
          waitingA) = true
  /\ Client.peer_pkey
       (snd (fst (Client.wait_body
                    (b_ "kampai_peer_establish:" ++ key_ending_in_space, addrB)
                    waitingA)))
     = Some (x3a :: repeat x01 31).
Proof.
  assert (H1 : length key_ending_in_space = 32) by (vm_compute; reflexivity).
  assert (H2 : Bytes.is_space (last key_ending_in_space x00) = true)
    by (vm_compute; reflexivity).
  pose proof (key_ending_in_whitespace_is_mangled waitingA addrB
                key_ending_in_space H1 H2) as T.
  cbv zeta in T; destruct T as (_ & Hsuf & _ & _ & Hone).
  destruct (Hone (repeat x01 31) x20 eq_refl eq_refl) as [_ Hk].
  split; [split; assumption|]; split; [exact Hsuf|]; split; [exact Hk|].
  split; vm_compute; reflexivity.
Defined.

(** C6 as stated fails: a datagram that begins with a space does not
    start with the tag; A, in its wait loop, accepts it, stores the
    peer, makes its box and answers. *)
Lemma space_before_tag_is_accepted :
  Bytes.startswith space_first (b_ "kampai_peer_establish:") = false
  /\ Process.reachable pA0 outA0
  /\ Process.stage pA0 = Handshake
  /\ Process.step pA0 (Datagram (space_first, addrB))
     = Some (Process.mk (Client.established waitingA addrB pkB (NaCl.shared_key boxA))
               (Duplex true),
             snd (after pA0 (Datagram (space_first, addrB))))
  /\ Process.boxes (snd (after pA0 (Datagram (space_first, addrB)))) = 1
  /\ sent (snd (after pA0 (Datagram (space_first, addrB))))
     = [(b_ "kampai_peer_establish:" ++ pkA, addrB)].
Proof.
  split; [vm_compute; reflexivity|]; split; [exact reachable_pA0|].
  repeat split; vm_compute; reflexivity.
Qed.

(** C6 as amended, on A in the wait loop. *)
Lemma untagged_changes_nothing_A :
  (Process.reachable pA0 outA0
   /\ Process.stage pA0 = Handshake
   /\ Wire.starts_after_whitespace noise (b_ "kampai_peer_establish:") = false)
  /\ Process.step pA0 (Datagram (noise, outsider)) = Some (pA0, [])
  /\ Hosted.step (os := Machine.loopback) pA0 (Datagram (noise, outsider))
     = Some (pA0, [])
  /\ Process.peer_unset (Process.client pA0)
  /\ Process.boxes outA0 = 0.
Proof.
  assert (H1 : Process.stage pA0 = Handshake) by reflexivity.
  assert (H2 : Wire.starts_after_whitespace noise (b_ "kampai_peer_establish:") = false)
    by reflexivity.
  split; [split; [exact reachable_pA0 | split; assumption]|].
  exact (untagged_changes_nothing (os := Machine.loopback) pA0 outA0
           (noise, outsider) reachable_pA0 H1 H2).
Defined.

(** C7 on the joiner B and on the creator A, on the loopback system. *)
Lemma start_of_session_AB :
  (length skB = 32 /\ creator B = false /\ target_host B = Some "127.0.0.1"%string
   /\ fst (Hosted.start (os := Machine.loopback) B skB)
      = Process.mk (Client.fresh B skB) Handshake
   /\ sent (snd (Hosted.start (os := Machine.loopback) B skB))
      = [(b_ "kampai_peer_establish:" ++ NaCl.public_key skB,
          ("127.0.0.1"%string, 9001%Z))])
  /\ (length skA = 32 /\ creator A = true
      /\ fst (Hosted.start (os := Machine.loopback) A skA)
         = Process.mk (Client.fresh A skA) Handshake
      /\ sent (snd (Hosted.start (os := Machine.loopback) A skA)) = []).
Proof.
  split.
  - split; [reflexivity|]; split; [reflexivity|]; split; [reflexivity|].
    destruct (proj1 (start_of_session (os := Machine.loopback) B skB
                       eq_refl eq_refl eq_refl eq_refl)
                "127.0.0.1"%string eq_refl eq_refl eq_refl eq_refl eq_refl)
      as (Hs & Hsent & _).
    split; [exact Hs | exact Hsent].
  - split; [reflexivity|]; split; [reflexivity|].
    exact (proj2 (start_of_session (os := Machine.loopback) A skA
                    eq_refl eq_refl eq_refl eq_refl) eq_refl).
Defined.

(** The start of a joiner whose target the system does not reach, and
    of a client with the port 70000. *)
Lemma start_fails :
  Hosted.start (os := Machine.loopback)
    (mkBehaviour false (Some "192.0.2.7"%string) 9001 "127.0.0.1" 9002) skB
  = (Process.mk
       (Client.fresh (mkBehaviour false (Some "192.0.2.7"%string) 9001 "127.0.0.1" 9002)
          skB)
       (Crashed OSError),
     [Bind ("127.0.0.1"%string, 9002%Z); StderrWrite (LogStarted false "127.0.0.1" 9002)])
  /\ Hosted.start (os := Machine.loopback)
       (mkBehaviour true None 45000 "127.0.0.1" 70000) skA
     = (Process.mk (Client.fresh (mkBehaviour true None 45000 "127.0.0.1" 70000) skA)
          (Crashed OverflowError), []).
Proof. split; vm_compute; reflexivity. Qed.

(** X5 on A: "hello" goes to B, from whom A's peer datagram came. *)
Lemma hello_goes_to_B :
  (Hosted.wait_body (os := Machine.loopback) from_B waitingA
   = (Ok false, readyA, snd (Hosted.wait_body (os := Machine.loopback) from_B waitingA))
   /\ Utf8.encode hello = Ok (b_ "hello") /\ length nonce = NaCl.NONCE_SIZE)
  /\ exists payload,
       length payload = 45
       /\ Hosted.step (os := Machine.loopback) (Process.mk readyA (Duplex true))
            (Line hello nonce)
          = Some (Process.mk readyA (Duplex true),
                  [Sendto payload addrB; StdoutWrite Client.prompt]).
Proof.
  assert (H1 : Hosted.wait_body (os := Machine.loopback) from_B waitingA
               = (Ok false, readyA,
                  snd (Hosted.wait_body (os := Machine.loopback) from_B waitingA)))
    by (vm_compute; reflexivity).
  assert (H2 : Utf8.encode hello = Ok (b_ "hello")) by (vm_compute; reflexivity).
  assert (H3 : length nonce = NaCl.NONCE_SIZE) by reflexivity.
  split; [repeat split; assumption|].
  apply (proj1 (lines_go_to_first_sender (os := Machine.loopback)
                  from_B waitingA readyA _ hello (b_ "hello") nonce H1 H2 H3)).
  - apply N.leb_le; vm_compute; reflexivity.
  - intros payload; reflexivity.
Defined.



End HostedExamples.

(** ** The two readings of the program agree

    What [Client] and [Process] say of the program holds of every run
    on a system in which no call of the socket or the terminal raised:
    a piece of a method that returns on the system has the value, the
    object and the effects it has where every call returns. *)

Section Agreement.
Context {sodium : Sodium} {os : Os}.

Lemma bind_inv (h : string) (port : Z) (a : address) :
  Socket.bind h port = Ok a -> a = (h, port).
Proof.
  unfold Socket.bind.
  destruct (Socket.sockaddr (Some h) port) as [a'|e] eqn:E; [|discriminate].
  cbn [rbind]; destruct (binds a'); [|discriminate].
  intros [= <-].
  destruct (sockaddr_inv _ _ _ E) as (Hh & Hp & _).
  destruct a' as [h' p']; cbn [fst snd] in Hh, Hp.
  injection Hh as <-; subst p'; reflexivity.
Qed.

Lemma hosted_init_prelude_ok (c c' : Client.t) (out : list effect) :
  Hosted.init_prelude c = (Ok tt, c', out) ->
  Client.init_prelude c = (Ok tt, c', out).
Proof.
  unfold Hosted.init_prelude, Client.init_prelude, Hosted.sock_bind,
    Hosted.sock_sendto, Client.bind, Client.gets, Client.emit, Client.lift,
    Client.ret, Client.raise.
  destruct (Socket.bind _ _) as [a|e] eqn:Eb; [|discriminate].
  rewrite (bind_inv _ _ _ Eb).
  destruct (creator (Client.behaviour c)); cbn [negb]; [intros H; exact H|].
  destruct (Socket.sendto _ _ _) as [a'|e] eqn:Es; [|discriminate].
  destruct (sendto_inv _ _ _ _ Es) as (Hh & Hp & _).
  destruct a' as [h p]; cbn [fst snd] in *; rewrite Hh, Hp.
  intros H; exact H.
Qed.

Lemma hosted_wait_body_ok (dg : datagram) (c c' : Client.t) (waiting : bool)
    (out : list effect) :
  Hosted.wait_body dg c = (Ok waiting, c', out) ->
  Client.wait_body dg c = (Ok waiting, c', out).
Proof.
  destruct waiting; [|intros H; exact (proj1 (hosted_accepted_inv dg c c' out H))].
  destruct (Client.tagged dg) eqn:Ht.
  2: { rewrite (hosted_wait_body_ignored dg c Ht), (wait_body_ignored dg c Ht).
       intros H; exact H. }
  destruct (Nat.eq_dec (length (Client.key_of dg)) 32) as [Hk | Hk].
  2: { rewrite (hosted_wait_body_short dg c Ht Hk); intros H; exact H. }
  destruct (crypto_box_beforenm (Client.key_of dg) (Client.self_skey c))
    as [k|] eqn:Hb.
  2: { rewrite (hosted_wait_body_refused dg c Ht Hk Hb); intros H; exact H. }
  rewrite (hosted_wait_body_accepted dg c k Ht Hk Hb).
  destruct (Socket.sendto _ _ _); [intros H; exact H | discriminate].
Qed.

Lemma hosted_get_input_body_ok (message : text) (nonce : bytes)
    (c c' : Client.t) (out : list effect) :
  Hosted.get_input_body message nonce c = (Ok tt, c', out) ->
  Client.get_input_body message nonce c = (Ok tt, c', out).
Proof.
  unfold Hosted.get_input_body, Client.get_input_body, Hosted.sock_sendto,
    Client.bind, Client.read, Client.lift, Client.emit, Client.ret.
  destruct (Client.box c) as [b|]; [|discriminate].
  destruct (Utf8.encode message) as [plain|e]; [|discriminate].
  destruct (NaCl.Box_encrypt b nonce plain) as [encrypted|e]; [|discriminate].
  destruct (Client.peer_host c) as [host|]; [|discriminate].
  destruct (Client.peer_port c) as [port|]; [|discriminate].
  destruct (Socket.sendto encrypted (Some host) port) as [a|e] eqn:Es;
    [|discriminate].
  destruct (sendto_inv _ _ _ _ Es) as (Hh & Hp & _).
  destruct a as [h p]; cbn [fst snd] in *.
  injection Hh as <-; subst p; intros H; exact H.
Qed.

Lemma hosted_run_body_ok (dg : datagram) (c c' : Client.t) (out : list effect) :
  Hosted.run_body dg c = (Ok tt, c', out) ->
  Client.run_body dg c = (Ok tt, c', out).
Proof.
  unfold Hosted.run_body, Client.run_body, Hosted.stdout_write, Client.bind,
    Client.try, Client.read, Client.lift, Client.emit, Client.raise, Client.ret.
  destruct (Client.box c) as [b|]; [|intros H; exact H].
  destruct (NaCl.Box_decrypt b (recv BUFSIZE dg)) as [plain|e]; [|intros H; exact H].
  destruct (Utf8.decode plain) as [t|e]; [|intros H; exact H].
  destruct (shows _); [intros H; exact H | discriminate].
Qed.

Lemma hosted_start_ok (bhv : Behaviour) (skey : bytes) :
  Process.stage (fst (Hosted.start bhv skey)) = Handshake ->
  Hosted.start bhv skey = Process.start bhv skey.
Proof.
  unfold Hosted.start, Process.start.
  destruct (Hosted.init_prelude (Client.fresh bhv skey)) as [[[[]|e] c] out] eqn:E;
    [|discriminate].
  rewrite (hosted_init_prelude_ok _ _ _ E); reflexivity.
Qed.

(** A datagram taken on a system without an exception is taken the
    same way where every call returns. *)
Lemma hosted_datagram_ok (p p' : Process.t) (dg : datagram) (out : list effect) :
  Hosted.step p (Datagram dg) = Some (p', out) ->
  (forall e, Process.stage p' <> Crashed e) ->
  Process.step p (Datagram dg) = Some (p', out).
Proof.
  unfold Hosted.step, Process.step, Hosted.handshake_step, Process.handshake_step.
  destruct (Process.stage p) as [| alive | e0]; [| |discriminate].
  - unfold Client.bind.
    destruct (Hosted.wait_body dg (Process.client p)) as [[[w|e] c] o] eqn:E.
    + rewrite (hosted_wait_body_ok _ _ _ _ _ E); intros H _; exact H.
    + intros [= <- <-] H; destruct (H e eq_refl).
  - destruct (Hosted.run_body dg (Process.client p)) as [[[[]|e] c] o] eqn:E.
    + rewrite (hosted_run_body_ok _ _ _ _ E); intros H _; exact H.
    + destruct alive; intros [= <- <-] H; destruct (H e eq_refl).
Qed.

(** A line after which the input thread goes on was sent the same
    way where every call returns. *)
Lemma hosted_line_ok (p p' : Process.t) (message : text) (nonce : bytes)
    (out : list effect) :
  Hosted.step p (Line message nonce) = Some (p', out) ->
  Process.stage p' = Duplex true ->
  Process.step p (Line message nonce) = Some (p', out).
Proof.
  unfold Hosted.step, Process.step, Hosted.input_step, Process.input_step.
  destruct (Process.stage p) as [| [|] | e0]; try discriminate.
  unfold Client.bind.
  destruct (Hosted.get_input_body message nonce (Process.client p))
    as [[[[]|e] c] o] eqn:E.
  - rewrite (hosted_get_input_body_ok _ _ _ _ _ E); intros H _; exact H.
  - intros [= <- <-]; discriminate.
Qed.

End Agreement.
